(** * Forecast accuracy metrics, chart series and report statistics

    A shallow embedding of the numeric core of
    [src/components/forecast-accuracy-chart.tsx]
    ([calculateMAPE], [calculateRMSE], [prepareChartData]) and of
    [src/components/report-dialog.tsx] ([calculateStats]).

    Numbers.  A JavaScript number is modelled by [JsNumber.num]: an exact
    real, or one of the three IEEE special values [PInf], [NInf], [NaN].
    Arithmetic on finite values is exact (rounding and overflow of
    binary64 are idealised away) and the two zeros are identified, the
    single zero dividing like [+0]; the special values follow the IEEE
    rules that JavaScript exposes (x/0, Inf-Inf, 0*Inf, sqrt of a negative,
    NaN propagation).

    Rounding.  Where the rounding of binary64 decides a property, the
    function is also given on Rocq's primitive floats, which are the
    binary64 numbers of JavaScript ([Chart64]).

    Dates.  A JavaScript [Date] is modelled by the calendar fields of its
    local time ([JsDate.Date]); the time of day is left out, as neither
    [setMonth] nor the label format reads it. *)

From Stdlib Require Import Reals Lra Lia ZArith String Ascii Bool List.
From Stdlib Require Floats.PrimFloat.
Import ListNotations.

(* ===================================================================== *)
(** ** JavaScript numbers *)
(* ===================================================================== *)

Module JsNumber.

Local Open Scope R_scope.

Inductive num : Type :=
| Fin (r : R)
| PInf
| NInf
| NaN.

Inductive sign : Type := Neg | Zero | Pos.

Definition sgnR (r : R) : sign :=
  if Rlt_dec r 0 then Neg else if Rlt_dec 0 r then Pos else Zero.

(** Sign of a number, [None] for [NaN]. *)
Definition sgn (x : num) : option sign :=
  match x with
  | Fin r => Some (sgnR r)
  | PInf => Some Pos
  | NInf => Some Neg
  | NaN => None
  end.

Definition zero : num := Fin 0.

Definition of_nat (n : nat) : num := Fin (INR n).

(** Unary minus. *)
Definition neg (x : num) : num :=
  match x with
  | Fin r => Fin (- r)
  | PInf => NInf
  | NInf => PInf
  | NaN => NaN
  end.

(** [x + y]. *)
Definition add (x y : num) : num :=
  match x, y with
  | NaN, _ | _, NaN => NaN
  | Fin a, Fin b => Fin (a + b)
  | PInf, NInf | NInf, PInf => NaN
  | PInf, _ | _, PInf => PInf
  | NInf, _ | _, NInf => NInf
  end.

(** [x - y]. *)
Definition sub (x y : num) : num := add x (neg y).

(** An infinity of the given sign; the product or quotient is [NaN] where
    IEEE says so (sign [Zero] stands for the factor 0). *)
Definition signed_inf (s : sign) : num :=
  match s with
  | Pos => PInf
  | Neg => NInf
  | Zero => NaN
  end.

Definition sign_mul (s t : sign) : sign :=
  match s, t with
  | Zero, _ | _, Zero => Zero
  | Pos, Pos | Neg, Neg => Pos
  | Pos, Neg | Neg, Pos => Neg
  end.

(** [x * y]. *)
Definition mul (x y : num) : num :=
  match x, y with
  | Fin a, Fin b => Fin (a * b)
  | _, _ =>
      match sgn x, sgn y with
      | Some s, Some t => signed_inf (sign_mul s t)
      | _, _ => NaN
      end
  end.

(** [x / y].  A zero divisor is the positive zero. *)
Definition div (x y : num) : num :=
  match x, y with
  | NaN, _ | _, NaN => NaN
  | Fin a, Fin b =>
      if Req_dec_T b 0 then signed_inf (sgnR a) else Fin (a / b)
  | Fin _, (PInf | NInf) => Fin 0
  | (PInf | NInf), (PInf | NInf) => NaN
  | PInf, Fin b => if Rlt_dec b 0 then NInf else PInf
  | NInf, Fin b => if Rlt_dec b 0 then PInf else NInf
  end.

(** [Math.abs(x)]. *)
Definition abs (x : num) : num :=
  match x with
  | Fin r => Fin (Rabs r)
  | PInf | NInf => PInf
  | NaN => NaN
  end.

(** [Math.sqrt(x)]. *)
Definition sqrt (x : num) : num :=
  match x with
  | Fin r => if Rlt_dec r 0 then NaN else Fin (R_sqrt.sqrt r)
  | PInf => PInf
  | NInf | NaN => NaN
  end.

(** [Math.pow(x, 2)]. *)
Definition pow2 (x : num) : num :=
  match x with
  | Fin r => Fin (r * r)
  | PInf | NInf => PInf
  | NaN => NaN
  end.

(** [x === y] on numbers: [NaN] equals nothing, itself included. *)
Definition strict_eq (x y : num) : bool :=
  match x, y with
  | Fin a, Fin b => if Req_dec_T a b then true else false
  | PInf, PInf | NInf, NInf => true
  | _, _ => false
  end.

(** [x !== y]. *)
Definition strict_neq (x y : num) : bool := negb (strict_eq x y).

(** Truthiness of a number: [0] and [NaN] are falsy. *)
Definition truthy (x : num) : bool :=
  match x with
  | Fin r => if Req_dec_T r 0 then false else true
  | PInf | NInf => true
  | NaN => false
  end.

(** [x || y] on numbers. *)
Definition or_else (x y : num) : num := if truthy x then x else y.

End JsNumber.

(* ===================================================================== *)
(** ** JavaScript arrays *)
(* ===================================================================== *)

Module JsArray.

Import JsNumber.

(** [arr.slice(start)] (ECMAScript 23.1.3.28 with [end] undefined): a
    negative [start] counts from the end and is clamped at 0, a
    non-negative one is clamped at the length.  [-0] is the integer 0. *)
Definition slice {A : Type} (start : Z) (arr : list A) : list A :=
  let len := Z.of_nat (length arr) in
  let k := if (start <? 0)%Z then Z.max (len + start) 0 else Z.min start len in
  skipn (Z.to_nat k) arr.

(** [arr.forEach((item, index) => ...)] where the callback updates the
    captured variables [s]; [forEachFrom] is the loop from index [i]. *)
Fixpoint forEachFrom {A S : Type} (callback : A -> nat -> S -> S)
    (arr : list A) (i : nat) (s : S) : S :=
  match arr with
  | [] => s
  | item :: rest => forEachFrom callback rest (Datatypes.S i) (callback item i s)
  end.

Definition forEach {A S : Type} (callback : A -> nat -> S -> S)
    (arr : list A) (s : S) : S :=
  forEachFrom callback arr 0 s.

(** [arr[i]] read as a number: an index out of range gives [undefined],
    which every arithmetic operator turns into [NaN]. *)
Definition get (arr : list num) (i : nat) : num := nth i arr NaN.

(** [arr.reduce(f, init)]. *)
Definition reduce {A B : Type} (f : B -> A -> B) (init : B) (arr : list A) : B :=
  fold_left f arr init.

(** [for (let i = 0; i < n; i++) body]; [forLoopFrom] is the loop with [n]
    iterations left, at index [i]. *)
Fixpoint forLoopFrom {S : Type} (body : nat -> S -> S) (i n : nat) (s : S) : S :=
  match n with
  | O => s
  | Datatypes.S n' => forLoopFrom body (Datatypes.S i) n' (body i s)
  end.

Definition forLoop {S : Type} (body : nat -> S -> S) (n : nat) (s : S) : S :=
  forLoopFrom body 0 n s.

End JsArray.

(* ===================================================================== *)
(** ** JavaScript dates *)
(* ===================================================================== *)

Module JsDate.

Local Open Scope Z_scope.

(** The local-time fields of a [Date]: [getFullYear()], [getMonth()]
    (0 for January) and [getDate()] (1 to 31). *)
Record Date : Type := mkDate { fullYear : Z; monthIndex : Z; dayOfMonth : Z }.

Definition getMonth (d : Date) : Z := monthIndex d.

Definition InLeapYear (y : Z) : bool :=
  ((y mod 4 =? 0) && negb (y mod 100 =? 0)) || (y mod 400 =? 0).

Definition DaysInMonth (y m : Z) : Z :=
  if m =? 1 then (if InLeapYear y then 29 else 28)
  else if (m =? 3) || (m =? 5) || (m =? 8) || (m =? 10) then 30
  else 31.

Definition nextMonth (y m : Z) : Z * Z :=
  if m =? 11 then (y + 1, 0) else (y, m + 1).

Definition prevMonth (y m : Z) : Z * Z :=
  if m =? 0 then (y - 1, 11) else (y, m - 1).

(** The calendar date that lies [d - 1] days after the first of month [m]
    of year [y]: a day number past the end of the month runs over into the
    following months, one below 1 into the preceding ones. *)
Fixpoint carryDays (fuel : nat) (y m d : Z) : Date :=
  match fuel with
  | O => mkDate y m d
  | S fuel' =>
      if d <? 1 then
        let '(y', m') := prevMonth y m in
        carryDays fuel' y' m' (d + DaysInMonth y' m')
      else if DaysInMonth y m <? d then
        let '(y', m') := nextMonth y m in
        carryDays fuel' y' m' (d - DaysInMonth y m)
      else mkDate y m d
  end.

(** [MakeDay(year, month, date)] of ECMAScript 21.4.1.28, read back as
    calendar fields: the month is first reduced into 0..11 with the years
    carried, then the day of the month is carried. *)
Definition MakeDay (year month date : Z) : Date :=
  carryDays (Z.to_nat (Z.abs date) + 1) (year + month / 12) (month mod 12) date.

(** [d.setMonth(month)]: the date [d] with its month replaced, day of the
    month kept and normalised by [MakeDay]. *)
Definition setMonth (d : Date) (month : Z) : Date :=
  MakeDay (fullYear d) month (dayOfMonth d).

Definition monthShort (m : Z) : string :=
  nth (Z.to_nat m)
    ["Jan"; "Feb"; "Mar"; "Apr"; "May"; "Jun";
     "Jul"; "Aug"; "Sep"; "Oct"; "Nov"; "Dec"]%string ""%string.

Definition digit (n : Z) : ascii := ascii_of_nat (48 + Z.to_nat n).

Definition twoDigitYear (y : Z) : string :=
  let yy := y mod 100 in
  String (digit (yy / 10)) (String (digit (yy mod 10)) EmptyString).

(** [d.toLocaleDateString("en-US", { month: "short", year: "2-digit" })],
    for instance ["Jan 24"]. *)
Definition toLocaleDateString (d : Date) : string :=
  (monthShort (monthIndex d) ++ " " ++ twoDigitYear (fullYear d))%string.

End JsDate.

(* ===================================================================== *)
(** ** forecast-accuracy-chart.tsx *)
(* ===================================================================== *)

Module Point.

(** An element of the chart data; [null] is [None]. *)
Record t : Type := mk {
  date : string;
  historical : option JsNumber.num;
  forecast : option JsNumber.num
}.

End Point.

Module Chart.

Import JsNumber JsArray JsDate.

(** A row of the history table, as far as the chart reads it;
    [created_at] is the row's timestamp already parsed by [new Date]. *)
Record HistoryRow : Type := mkRow { created_at : Date; cost : num }.

(** The body of the prediction response; [forecast] may be missing. *)
Record ForecastData : Type := mkForecast { forecast : option (list num) }.

Definition calculateMAPE (historyData : list HistoryRow)
    (forecastData : ForecastData) : num :=
  if (length historyData =? 0)%nat then zero else
  match forecast forecastData with
  | None => zero
  | Some fc =>
      let lastHistoricalPoints := slice (- Z.of_nat (length fc)) historyData in
      let '(totalError, count) :=
        forEach
          (fun item index '(totalError, count) =>
             if (index <? length fc)%nat then
               let actual := cost item in
               let forecast := get fc index in
               if strict_neq actual zero then
                 (add totalError
                    (mul (abs (div (sub actual forecast) actual)) (Fin 100)),
                  S count)
               else (totalError, count)
             else (totalError, count))
          lastHistoricalPoints (zero, O) in
      if (0 <? count)%nat then div totalError (of_nat count) else zero
  end.

Definition calculateRMSE (historyData : list HistoryRow)
    (forecastData : ForecastData) : num :=
  if (length historyData =? 0)%nat then zero else
  match forecast forecastData with
  | None => zero
  | Some fc =>
      let lastHistoricalPoints := slice (- Z.of_nat (length fc)) historyData in
      let '(sumSquaredErrors, count) :=
        forEach
          (fun item index '(sumSquaredErrors, count) =>
             if (index <? length fc)%nat then
               let actual := cost item in
               let forecast := get fc index in
               (add sumSquaredErrors (pow2 (sub actual forecast)), S count)
             else (sumSquaredErrors, count))
          lastHistoricalPoints (zero, O) in
      if (0 <? count)%nat then sqrt (div sumSquaredErrors (of_nat count))
      else zero
  end.

(** [now] is the value of [new Date()] at the time of the call. *)
Definition prepareChartData (now : Date) (historyData : list HistoryRow)
    (forecastData : option ForecastData) : list Point.t :=
  let combined :=
    fold_left
      (fun combined item =>
         let date := created_at item in
         combined ++ [Point.mk (toLocaleDateString date) (Some (cost item)) None])
      historyData [] in
  let lastDate :=
    if (0 <? length historyData)%nat then
      match nth_error historyData (length historyData - 1) with
      | Some item => created_at item
      | None => now
      end
    else now in
  match forecastData with
  | Some {| forecast := Some fc |} =>
      snd (forLoop
             (fun i '(lastDate, combined) =>
                let lastDate := setMonth lastDate (getMonth lastDate + 1) in
                (lastDate,
                 combined ++
                 [Point.mk (toLocaleDateString lastDate) None (Some (get fc i))]))
             (length fc) (lastDate, combined))
  | _ => combined
  end.

End Chart.

(* ===================================================================== *)
(** ** report-dialog.tsx *)
(* ===================================================================== *)

Module Report.

Import JsNumber JsArray.

(** An element of [historicalData], as far as the report reads it. *)
Record PriceRow : Type := mkPrice { price : num }.

(** What the state [forecastedCost] can hold at run time: its declared
    [number | null], and the [undefined] that reading past the end of the
    response array stores. *)
Inductive Cost : Type :=
| CostUndefined
| CostNull
| CostNum (v : num).

(** [lastForecast] is the cost as it was found, a number or [undefined]. *)
Record Stats : Type := mkStats {
  lastHistorical : num;
  lastForecast : Cost;
  percentChange : num;
  historicalAvg : num;
  forecastAvg : num
}.

(** Only [forecastedCost === null] makes the cost absent: [undefined]
    passes the test like a number. *)
Definition calculateStats (historicalData : list PriceRow)
    (forecastSeries : list num) (forecastedCost : Cost) : option Stats :=
  if (length historicalData =? 0)%nat || (length forecastSeries =? 0)%nat
  then None
  else
    match forecastedCost with
    | CostNull => None
    | _ =>
        let historicalAvg :=
          div (reduce (fun sum item => add sum (price item)) zero historicalData)
              (of_nat (length historicalData)) in
        let forecastAvg :=
          div (reduce (fun sum price => add sum price) zero forecastSeries)
              (of_nat (length forecastSeries)) in
        let percentChange :=
          mul (div (sub forecastAvg historicalAvg) historicalAvg) (Fin 100) in
        Some {|
          lastHistorical :=
            match nth_error historicalData (length historicalData - 1) with
            | Some item => or_else (price item) zero
            | None => zero
            end;
          lastForecast := forecastedCost;
          percentChange := percentChange;
          historicalAvg := historicalAvg;
          forecastAvg := forecastAvg
        |}
    end.

End Report.

(* ===================================================================== *)
(** ** The specification's reading of the metrics and statistics *)
(* ===================================================================== *)

(** These definitions follow the words of the specification (sections 3,
    4.1 and 4.3), over exact reals; the theorems below compare them with
    the functions of the source. *)
Module Spec.

Local Open Scope R_scope.

(** The last [k] elements of [l], in order. *)
Definition lastn {A : Type} (k : nat) (l : list A) : list A :=
  skipn (length l - k) l.

(** "Let tail = last min(len(historical), len(forecast)) elements of
    historical, preserving order." *)
Definition tail (historical forecast : list R) : list R :=
  lastn (Nat.min (length historical) (length forecast)) historical.

(** "For each index i in tail, pair actual = tail[i].cost with predicted =
    forecast[i]." *)
Definition pairs (historical forecast : list R) : list (R * R) :=
  combine (tail historical forecast) forecast.

Definition sumR (l : list R) : R := fold_right Rplus 0 l.

(** Arithmetic mean. *)
Definition meanR (l : list R) : R := sumR l / INR (length l).

(** The mean of [err] over the pairs, 0 when there is none. *)
Definition meanOver (err : R * R -> R) (ps : list (R * R)) : R :=
  match ps with
  | [] => 0
  | _ => meanR (map err ps)
  end.

(** A pair is skipped when its actual value is 0. *)
Definition validPair (p : R * R) : bool :=
  if Req_dec_T (fst p) 0 then false else true.

(** [|actual - predicted| / actual * 100]. *)
Definition ape (p : R * R) : R := Rabs (fst p - snd p) / fst p * 100.

Definition computeMAPE (historical forecast : list R) : R :=
  meanOver ape (filter validPair (pairs historical forecast)).

(** [(actual - predicted)^2]. *)
Definition squaredError (p : R * R) : R := (fst p - snd p) ^ 2.

Definition computeRMSE (historical forecast : list R) : R :=
  match pairs historical forecast with
  | [] => 0
  | ps => R_sqrt.sqrt (meanR (map squaredError ps))
  end.

(** Arithmetic mean of JavaScript numbers. *)
Definition mean (l : list JsNumber.num) : JsNumber.num :=
  JsNumber.div (fold_right JsNumber.add JsNumber.zero l)
               (JsNumber.of_nat (length l)).

(** [(forecastAvg - historicalAvg) / historicalAvg * 100] in JavaScript
    arithmetic. *)
Definition percentChange (forecastAvg historicalAvg : JsNumber.num)
    : JsNumber.num :=
  JsNumber.mul
    (JsNumber.div (JsNumber.sub forecastAvg historicalAvg) historicalAvg)
    (JsNumber.Fin 100).

(** The same over reals, for a non-zero [historicalAvg]. *)
Definition percentChangeR (forecastAvg historicalAvg : R) : R :=
  (forecastAvg - historicalAvg) / historicalAvg * 100.

(** The sentinel of section 4.3 for a zero [historicalAvg]: no statistics
    at all, or a [percentChange] that is the not-a-number marker. *)
Definition reportsSentinel (r : option Report.Stats) : Prop :=
  match r with
  | None => True
  | Some st => Report.percentChange st = JsNumber.NaN
  end.

End Spec.

(** The per-pair error as the source computes it,
    [Math.abs((actual - forecast) / actual) * 100], over reals. *)
Definition apeOfSource (p : R * R) : R :=
  (Rabs ((fst p - snd p) / fst p) * 100)%R.

(** The forecast points that [prepareChartData] appends for the values
    [fc], starting from the cursor [lastDate]. *)
Fixpoint forecastPoints (lastDate : JsDate.Date) (fc : list JsNumber.num)
    : list Point.t :=
  match fc with
  | [] => []
  | v :: rest =>
      let next := JsDate.setMonth lastDate (JsDate.getMonth lastDate + 1) in
      Point.mk (JsDate.toLocaleDateString next) None (Some v)
      :: forecastPoints next rest
  end.

(** The historical point of a row. *)
Definition historicalPoint (item : Chart.HistoryRow) : Point.t :=
  Point.mk (JsDate.toLocaleDateString (Chart.created_at item))
           (Some (Chart.cost item)) None.

(** The cursor [prepareChartData] starts from. *)
Definition startDate (now : JsDate.Date) (historyData : list Chart.HistoryRow)
    : JsDate.Date :=
  match historyData with
  | [] => now
  | _ => Chart.created_at (last historyData (Chart.mkRow now JsNumber.NaN))
  end.

(** Rows and forecast bodies built from exact reals. *)
Definition forecastOf (f : list R) : Chart.ForecastData :=
  Chart.mkForecast (Some (map JsNumber.Fin f)).

Definition pricesOf (l : list R) : list Report.PriceRow :=
  map (fun r => Report.mkPrice (JsNumber.Fin r)) l.

(** What one iteration of the [forEach] of [calculateMAPE] does to
    [(totalError, count)] for a pair inside the forecast. *)
Definition mapeStep (actual forecast : JsNumber.num)
    (s : JsNumber.num * nat) : JsNumber.num * nat :=
  if JsNumber.strict_neq actual JsNumber.zero then
    (JsNumber.add (fst s)
       (JsNumber.mul
          (JsNumber.abs (JsNumber.div (JsNumber.sub actual forecast) actual))
          (JsNumber.Fin 100)),
     S (snd s))
  else s.

(** The same for [calculateRMSE] and [(sumSquaredErrors, count)]. *)
Definition rmseStep (actual forecast : JsNumber.num)
    (s : JsNumber.num * nat) : JsNumber.num * nat :=
  (JsNumber.add (fst s) (JsNumber.pow2 (JsNumber.sub actual forecast)),
   S (snd s)).

(** A pair of reals as a pair of numbers. *)
Definition finPair (p : R * R) : JsNumber.num * JsNumber.num :=
  (JsNumber.Fin (fst p), JsNumber.Fin (snd p)).

(** A row with its cost multiplied by [c], in JavaScript arithmetic. *)
Definition scaleRow (c : R) (item : Chart.HistoryRow) : Chart.HistoryRow :=
  Chart.mkRow (Chart.created_at item)
              (JsNumber.mul (JsNumber.Fin c) (Chart.cost item)).

(** A forecast body with every value multiplied by [c]. *)
Definition scaleForecast (c : R) (fd : Chart.ForecastData) : Chart.ForecastData :=
  Chart.mkForecast
    (option_map (map (JsNumber.mul (JsNumber.Fin c))) (Chart.forecast fd)).

(** Both members of a pair multiplied by [c]. *)
Definition scalePair (c : R) (p : R * R) : R * R :=
  (c * fst p, c * snd p)%R.

(* ===================================================================== *)
(** ** report-dialog.tsx: the forecast state, the summary and the PDF *)
(* ===================================================================== *)

(** [x >= y] on numbers: false as soon as one side is [NaN]. *)
Definition geb (x y : JsNumber.num) : bool :=
  match x, y with
  | JsNumber.NaN, _ | _, JsNumber.NaN => false
  | JsNumber.Fin a, JsNumber.Fin b => if Rle_dec b a then true else false
  | JsNumber.PInf, _ | _, JsNumber.NInf => true
  | _, _ => false
  end.

Module ReportFetch.

Import JsNumber Report.

Definition costOfOption (c : option num) : Cost :=
  match c with
  | Some v => CostNum v
  | None => CostNull
  end.

(** The two pieces of state the effect sets; a series of [None] is
    [undefined]. *)
Record ForecastState : Type := mkState {
  forecastSeries : option (list num);
  forecastedCost : Cost
}.

Definition setForecastSeries (v : option (list num)) (st : ForecastState)
    : ForecastState :=
  mkState v (forecastedCost st).

Definition setForecastedCost (v : Cost) (st : ForecastState) : ForecastState :=
  mkState (forecastSeries st) v.

(** The outcome of [fetch] and [response.json()]: a rejection, or a body
    whose [forecast] may be missing. *)
Inductive Response : Type :=
| Rejected
| Body (forecast : option (list num)).

(** [arr[i]] stored as a cost. *)
Definition costAt (arr : list num) (i : nat) : Cost :=
  match nth_error arr i with
  | Some v => CostNum v
  | None => CostUndefined
  end.

(** The [try] block; the boolean tells whether it threw.  Reading index 5
    of a missing [forecast] throws after the series has been set. *)
Definition tryBlock (r : Response) (st : ForecastState) : ForecastState * bool :=
  match r with
  | Rejected => (st, true)
  | Body data_forecast =>
      let st := setForecastSeries data_forecast st in
      match data_forecast with
      | None => (st, true)
      | Some arr => (setForecastedCost (costAt arr 5) st, false)
      end
  end.

(** The [catch] block. *)
Definition catchBlock (forecastData historicalData : list PriceRow)
    (st : ForecastState) : ForecastState :=
  if (0 <? length forecastData)%nat then
    let st := setForecastSeries (Some (map (fun item => price item) forecastData)) st in
    match nth_error forecastData (length forecastData - 1) with
    | Some item => setForecastedCost (CostNum (price item)) st
    | None => st
    end
  else if (0 <? length historicalData)%nat then
    match nth_error historicalData (length historicalData - 1) with
    | Some item =>
        let st := setForecastSeries (Some [price item]) st in
        setForecastedCost (CostNum (price item)) st
    | None => st
    end
  else
    let st := setForecastSeries (Some []) st in
    setForecastedCost CostNull st.

(** The state once [fetchForecast] has run. *)
Definition fetchForecast (r : Response)
    (forecastData historicalData : list PriceRow) (st : ForecastState)
    : ForecastState :=
  let '(st, threw) := tryBlock r st in
  if threw then catchBlock forecastData historicalData st else st.

End ReportFetch.

Module ReportView.

Import JsNumber Report.

(** The sign shown before the expected change:
    [stats.percentChange >= 0 ? "+" : ""]. *)
Definition signPrefix (stats : Stats) : string :=
  if geb (percentChange stats) zero then "+"%string else ""%string.

(** The verb of the analysis paragraph:
    [stats && stats.percentChange >= 0 ? " increase " : " decrease "]. *)
Definition trendWord (stats : option Stats) : string :=
  match stats with
  | Some st =>
      if geb (percentChange st) zero then " increase "%string
      else " decrease "%string
  | None => " decrease "%string
  end.

End ReportView.

Module ReportPdf.

Import JsNumber.

(** The position and size arguments of [pdf.addImage], in millimetres. *)
Record Placement : Type := mkPlacement {
  x : num;
  y : num;
  imgWidth : num;
  imgHeight : num
}.

Definition margin : num := Fin 10.

Definition pageWidth : num := sub (Fin 210) (mul margin (Fin 2)).

Definition pageHeight : num := sub (Fin 297) (mul margin (Fin 2)).

(** The layout computed by [handleGenerateReport] for a canvas of the
    given pixel size. *)
Definition imagePlacement (canvasWidth canvasHeight : nat) : Placement :=
  let imgWidth := pageWidth in
  let imgHeight :=
    div (mul (of_nat canvasHeight) imgWidth) (of_nat canvasWidth) in
  mkPlacement margin margin imgWidth imgHeight.

End ReportPdf.

(* ===================================================================== *)
(** ** forecast-accuracy-chart.tsx on binary64 numbers *)
(* ===================================================================== *)

(** [calculateMAPE] once more, with every number a binary64 float and
    every operation the IEEE one, as JavaScript computes it; [count] is a
    number like the others. *)
Module Chart64.

Import PrimFloat JsArray.

Local Open Scope float_scope.

Record HistoryRow : Type := mkRow { created_at : JsDate.Date; cost : float }.

Record ForecastData : Type := mkForecast { forecast : option (list float) }.

(** [arr[i]] read as a number, [NaN] for the [undefined] past the end. *)
Definition get (arr : list float) (i : nat) : float := nth i arr nan.

Definition calculateMAPE (historyData : list HistoryRow)
    (forecastData : ForecastData) : float :=
  if (length historyData =? 0)%nat then 0 else
  match forecast forecastData with
  | None => 0
  | Some fc =>
      let lastHistoricalPoints := slice (- Z.of_nat (length fc)) historyData in
      let '(totalError, count) :=
        forEach
          (fun item index '(totalError, count) =>
             if (index <? length fc)%nat then
               let actual := cost item in
               let forecast := get fc index in
               if negb (actual =? 0) then
                 (totalError + abs ((actual - forecast) / actual) * 100,
                  count + 1)
               else (totalError, count)
             else (totalError, count))
          lastHistoricalPoints (0, 0) in
      if 0 <? count then totalError / count else 0
  end.

(** A row with its cost multiplied by [c]. *)
Definition scaleRow (c : float) (item : HistoryRow) : HistoryRow :=
  mkRow (created_at item) (c * cost item).

(** A forecast body with every value multiplied by [c]. *)
Definition scaleForecast (c : float) (fd : ForecastData) : ForecastData :=
  mkForecast (option_map (map (fun v => c * v)) (forecast fd)).

End Chart64.

(** The label of the month that lies [k] months after month [m] of year
    [y]. *)
Definition labelAfter (y m : Z) (k : Z) : string :=
  JsDate.toLocaleDateString
    (JsDate.mkDate (y + (m + k) / 12) ((m + k) mod 12) 1).

(** What [calculateMAPE] returns for the final [(totalError, count)]. *)
Definition mapeResult (s : JsNumber.num * nat) : JsNumber.num :=
  if (0 <? snd s)%nat then JsNumber.div (fst s) (JsNumber.of_nat (snd s))
  else JsNumber.zero.

(** What [calculateRMSE] returns for the final
    [(sumSquaredErrors, count)]. *)
Definition rmseResult (s : JsNumber.num * nat) : JsNumber.num :=
  if (0 <? snd s)%nat
  then JsNumber.sqrt (JsNumber.div (fst s) (JsNumber.of_nat (snd s)))
  else JsNumber.zero.

(** The items of the trailing window paired with the forecast values, as
    the two metric loops visit them. *)
Definition pairedWindow (h : list Chart.HistoryRow) (fc : list JsNumber.num)
    : list (JsNumber.num * JsNumber.num) :=
  combine (map Chart.cost (JsArray.slice (- Z.of_nat (length fc)) h)) fc.

(* ===================================================================== *)
(** ** Facts about the number model *)
(* ===================================================================== *)

Import JsNumber JsArray.

Local Open Scope R_scope.

Lemma strict_neq_zero_Fin (r : R) :
  strict_neq (Fin r) zero = Spec.validPair (r, 0).
Proof.
  unfold strict_neq, strict_eq, zero, Spec.validPair; simpl.
  destruct (Req_dec_T r 0); reflexivity.
Qed.

Lemma div_Fin_of_nat (a : R) (n : nat) :
  (0 < n)%nat -> div (Fin a) (of_nat n) = Fin (a / INR n).
Proof.
  intros Hn; unfold div, of_nat.
  destruct (Req_dec_T (INR n) 0) as [E | _]; [ | reflexivity].
  exfalso; revert E; apply not_0_INR; lia.
Qed.

Lemma add_comm (x y : num) : add x y = add y x.
Proof. destruct x, y; simpl; try reflexivity; f_equal; lra. Qed.

Lemma add_assoc (x y z : num) : add x (add y z) = add (add x y) z.
Proof. destruct x, y, z; simpl; try reflexivity; f_equal; lra. Qed.

Lemma add_zero_l (x : num) : add zero x = x.
Proof. destruct x; simpl; try reflexivity; f_equal; lra. Qed.

(** A left-to-right sum from [acc] is [acc] plus the sum of the list. *)
Lemma fold_left_add (l : list num) (acc : num) :
  fold_left add l acc = add acc (fold_right add zero l).
Proof.
  revert acc; induction l as [ | x l IH]; intros acc; simpl.
  - rewrite add_comm; symmetry; apply add_zero_l.
  - rewrite IH; symmetry; apply add_assoc.
Qed.

Lemma fold_right_add_Fin (l : list R) :
  fold_right add zero (map Fin l) = Fin (Spec.sumR l).
Proof.
  induction l as [ | x l IH]; simpl; [reflexivity | ].
  rewrite IH; reflexivity.
Qed.

Lemma mean_Fin (l : list R) :
  l <> [] -> Spec.mean (map Fin l) = Fin (Spec.meanR l).
Proof.
  intros Hl; unfold Spec.mean, Spec.meanR.
  rewrite fold_right_add_Fin, length_map.
  apply div_Fin_of_nat.
  destruct l; [congruence | simpl; lia].
Qed.

(* ===================================================================== *)
(** ** Facts about the array operations *)
(* ===================================================================== *)

Lemma skipn_get (fc : list num) (i : nat) :
  (i < length fc)%nat -> skipn i fc = get fc i :: skipn (S i) fc.
Proof.
  unfold get; revert i; induction fc as [ | v l IH]; intros i Hlt;
    simpl in *; [lia | ].
  destruct i; [reflexivity | ].
  simpl; apply IH; lia.
Qed.

Section ForEachGuarded.

Variables A S : Type.
Variable fc : list num.
Variable proj : A -> num.
Variable step : num -> num -> S -> S.

(** The callback shape shared by the two metrics: nothing happens past the
    end of the forecast, so the loop is a fold over the items paired with
    the forecast values from index [i] on. *)
Lemma forEachFrom_guarded (arr : list A) (i : nat) (s : S) :
  forEachFrom
    (fun item index s =>
       if (index <? length fc)%nat
       then step (proj item) (get fc index) s else s)
    arr i s
  = fold_left (fun s p => step (fst p) (snd p) s)
              (combine (map proj arr) (skipn i fc)) s.
Proof.
  revert i s; induction arr as [ | item rest IH]; intros i s; simpl.
  - reflexivity.
  - rewrite IH.
    destruct (Nat.ltb_spec i (length fc)) as [Hlt | Hge].
    + rewrite (skipn_get fc i Hlt); reflexivity.
    + rewrite !(skipn_all2 fc) by lia.
      rewrite combine_nil; reflexivity.
Qed.

End ForEachGuarded.

Lemma slice_map {A B : Type} (f : A -> B) (k : Z) (l : list A) :
  slice k (map f l) = map f (slice k l).
Proof. unfold slice; rewrite length_map; apply skipn_map. Qed.

(** [slice(-n)] and the specification's tail agree on what gets paired
    with a forecast of length [n]. *)
Lemma combine_slice_tail (h f : list R) :
  combine (slice (- Z.of_nat (length f)) h) f = Spec.pairs h f.
Proof.
  unfold Spec.pairs, Spec.tail, Spec.lastn, slice.
  destruct f as [ | p f].
  - rewrite !combine_nil; reflexivity.
  - f_equal; f_equal.
    cbn [length].
    destruct (Z.ltb_spec (- Z.of_nat (Datatypes.S (length f))) 0); lia.
Qed.

Lemma combine_map2 {A B C D : Type} (f : A -> C) (g : B -> D)
    (xs : list A) (ys : list B) :
  combine (map f xs) (map g ys)
  = map (fun p => (f (fst p), g (snd p))) (combine xs ys).
Proof.
  revert ys; induction xs as [ | x xs IH]; intros [ | y ys]; simpl;
    try reflexivity.
  rewrite IH; reflexivity.
Qed.

Lemma combine_map_Fin (xs ys : list R) :
  combine (map Fin xs) (map Fin ys) = map finPair (combine xs ys).
Proof. apply combine_map2. Qed.

Lemma forEachFrom_ext {A S : Type} (f g : A -> nat -> S -> S) :
  (forall item index s, f item index s = g item index s) ->
  forall arr i s, forEachFrom f arr i s = forEachFrom g arr i s.
Proof.
  intros Hfg arr; induction arr as [ | item rest IH]; intros i s; simpl.
  - reflexivity.
  - rewrite Hfg; apply IH.
Qed.

Lemma In_skipn {A : Type} (x : A) (n : nat) (l : list A) :
  In x (skipn n l) -> In x l.
Proof.
  intros Hin; rewrite <- (firstn_skipn n l); apply in_or_app; right; exact Hin.
Qed.

Lemma In_pairs_fst (h f : list R) (p : R * R) :
  In p (Spec.pairs h f) -> In (fst p) h.
Proof.
  destruct p as [a b]; unfold Spec.pairs, Spec.tail, Spec.lastn; intros Hin.
  apply in_combine_l in Hin; apply In_skipn in Hin; exact Hin.
Qed.

Lemma validPair_true (p : R * R) : Spec.validPair p = true <-> fst p <> 0.
Proof.
  unfold Spec.validPair; destruct (Req_dec_T (fst p) 0); split;
    intros; congruence.
Qed.

(* ===================================================================== *)
(** ** The metric loops on exact reals *)
(* ===================================================================== *)

Lemma sumR_cons (x : R) (l : list R) : Spec.sumR (x :: l) = x + Spec.sumR l.
Proof. reflexivity. Qed.

Lemma mapeStep_Fin (a p acc : R) (n : nat) :
  mapeStep (Fin a) (Fin p) (Fin acc, n)
  = if Spec.validPair (a, p)
    then (Fin (acc + apeOfSource (a, p)), Datatypes.S n)
    else (Fin acc, n).
Proof.
  unfold mapeStep; rewrite strict_neq_zero_Fin.
  unfold Spec.validPair; cbn [fst snd].
  destruct (Req_dec_T a 0) as [E | NE]; [reflexivity | ].
  cbn [sub neg add div].
  destruct (Req_dec_T a 0) as [E | _]; [contradiction | ].
  reflexivity.
Qed.

Lemma rmseStep_Fin (a p acc : R) (n : nat) :
  rmseStep (Fin a) (Fin p) (Fin acc, n)
  = (Fin (acc + Spec.squaredError (a, p)), Datatypes.S n).
Proof.
  unfold rmseStep, Spec.squaredError; cbn [fst snd sub neg add pow2].
  f_equal; f_equal; f_equal; unfold Rminus; simpl; ring.
Qed.

(** Invariant of the [calculateMAPE] loop: on finite inputs the running
    total stays finite, and the counter counts the pairs kept. *)
Lemma fold_mapeStep (ps : list (R * R)) (acc : R) (n : nat) :
  fold_left (fun s p => mapeStep (fst p) (snd p) s) (map finPair ps) (Fin acc, n)
  = (Fin (acc + Spec.sumR (map apeOfSource (filter Spec.validPair ps))),
     (n + length (filter Spec.validPair ps))%nat).
Proof.
  revert acc n; induction ps as [ | [a p] ps IH]; intros acc n.
  - simpl; f_equal; [f_equal; lra | lia].
  - cbn [map fold_left filter finPair fst snd].
    rewrite mapeStep_Fin.
    destruct (Spec.validPair (a, p)); rewrite IH; [ | reflexivity].
    cbn [map length]; rewrite sumR_cons.
    f_equal; [f_equal; lra | lia].
Qed.

Lemma fold_rmseStep (ps : list (R * R)) (acc : R) (n : nat) :
  fold_left (fun s p => rmseStep (fst p) (snd p) s) (map finPair ps) (Fin acc, n)
  = (Fin (acc + Spec.sumR (map Spec.squaredError ps)), (n + length ps)%nat).
Proof.
  revert acc n; induction ps as [ | [a p] ps IH]; intros acc n.
  - simpl; f_equal; [f_equal; lra | lia].
  - cbn [map fold_left finPair fst snd].
    rewrite rmseStep_Fin, IH.
    cbn [map length]; rewrite sumR_cons.
    f_equal; [f_equal; lra | lia].
Qed.

Lemma sumR_squaredError_nonneg (ps : list (R * R)) :
  0 <= Spec.sumR (map Spec.squaredError ps).
Proof.
  induction ps as [ | p ps IH]; cbn [map]; [simpl; lra | ].
  rewrite sumR_cons; unfold Spec.squaredError at 1.
  pose proof (pow2_ge_0 (fst p - snd p)); lra.
Qed.

(** The rows paired with the forecast, as pairs of reals. *)
Lemma paired_rows (h : list Chart.HistoryRow) (costs f : list R) :
  map Chart.cost h = map Fin costs ->
  combine (map Chart.cost (slice (- Z.of_nat (length (map Fin f))) h))
          (skipn 0 (map Fin f))
  = map finPair (Spec.pairs costs f).
Proof.
  intros Hc.
  rewrite <- slice_map, Hc, slice_map, length_map, skipn_0.
  rewrite combine_map_Fin, combine_slice_tail; reflexivity.
Qed.

(** [calculateMAPE] on finite inputs: the mean, over the pairs with a
    non-zero actual value, of the error as the source writes it. *)
Lemma calculateMAPE_exact (h : list Chart.HistoryRow) (costs f : list R) :
  map Chart.cost h = map Fin costs ->
  Chart.calculateMAPE h (forecastOf f)
  = Fin (Spec.meanOver apeOfSource
           (filter Spec.validPair (Spec.pairs costs f))).
Proof.
  intros Hc; unfold Chart.calculateMAPE.
  destruct h as [ | r h].
  - destruct costs; [ | discriminate]; reflexivity.
  - cbn [length Nat.eqb forecastOf Chart.forecast].
    unfold forEach.
    rewrite (forEachFrom_ext _
      (fun item index s =>
         if (index <? length (map Fin f))%nat
         then mapeStep (Chart.cost item) (get (map Fin f) index) s else s)).
    2:{ intros item index [te c]; unfold mapeStep; simpl.
        destruct (index <? _)%nat; [ | reflexivity].
        destruct (strict_neq _ _); reflexivity. }
    rewrite (forEachFrom_guarded _ _ (map Fin f) Chart.cost mapeStep).
    rewrite (paired_rows _ costs f Hc).
    unfold zero at 1; rewrite fold_mapeStep; cbv beta iota; cbn [Nat.add].
    destruct (filter Spec.validPair (Spec.pairs costs f)) as [ | q qs] eqn:E.
    + reflexivity.
    + cbn [length Nat.ltb Nat.leb].
      rewrite div_Fin_of_nat by lia.
      unfold Spec.meanOver, Spec.meanR; rewrite length_map.
      f_equal; f_equal; lra.
Qed.

Lemma calculateRMSE_exact (h : list Chart.HistoryRow) (costs f : list R) :
  map Chart.cost h = map Fin costs ->
  Chart.calculateRMSE h (forecastOf f) = Fin (Spec.computeRMSE costs f).
Proof.
  intros Hc; unfold Chart.calculateRMSE.
  destruct h as [ | r h].
  - destruct costs; [ | discriminate]; reflexivity.
  - cbn [length Nat.eqb forecastOf Chart.forecast].
    unfold forEach.
    rewrite (forEachFrom_ext _
      (fun item index s =>
         if (index <? length (map Fin f))%nat
         then rmseStep (Chart.cost item) (get (map Fin f) index) s else s)).
    2:{ intros item index [te c]; unfold rmseStep; simpl.
        destruct (index <? _)%nat; reflexivity. }
    rewrite (forEachFrom_guarded _ _ (map Fin f) Chart.cost rmseStep).
    rewrite (paired_rows _ costs f Hc).
    unfold zero at 1; rewrite fold_rmseStep; cbv beta iota; cbn [Nat.add].
    unfold Spec.computeRMSE.
    destruct (Spec.pairs costs f) as [ | q qs] eqn:E.
    + reflexivity.
    + cbn [length Nat.ltb Nat.leb].
      rewrite div_Fin_of_nat by lia.
      unfold sqrt, Spec.meanR; rewrite length_map, Rplus_0_l.
      destruct (Rlt_dec _ 0) as [Hneg | _]; [ | reflexivity].
      exfalso.
      pose proof (sumR_squaredError_nonneg (q :: qs)) as Hs.
      assert (Hn : 0 < INR (length (q :: qs))) by (apply lt_0_INR; simpl; lia).
      apply (Rlt_not_le _ _ Hneg).
      apply Rmult_le_pos; [exact Hs | ].
      left; apply Rinv_0_lt_compat; exact Hn.
Qed.

(** With an empty forecast array the guard [index < 0] never holds. *)
Lemma forEach_empty_forecast_from {S : Type} (step : num -> num -> S -> S)
    (arr : list Chart.HistoryRow) (s : S) :
  forEachFrom
    (fun item index s =>
       if (index <? @length num [])%nat
       then step (Chart.cost item) (get [] index) s else s)
    arr 0 s = s.
Proof.
  rewrite (forEachFrom_guarded _ _ [] Chart.cost step).
  rewrite skipn_nil, combine_nil; reflexivity.
Qed.

(* ===================================================================== *)
(** ** Scaling *)
(* ===================================================================== *)

Lemma pairs_scale (c : R) (h f : list R) :
  Spec.pairs (map (Rmult c) h) (map (Rmult c) f)
  = map (scalePair c) (Spec.pairs h f).
Proof.
  unfold Spec.pairs, Spec.tail, Spec.lastn.
  rewrite !length_map, skipn_map.
  apply combine_map2.
Qed.





Lemma mul_Fin_map (c : R) (l : list R) :
  map (mul (Fin c)) (map Fin l) = map Fin (map (Rmult c) l).
Proof. rewrite !map_map; reflexivity. Qed.

(* ===================================================================== *)
(** ** The combined series *)
(* ===================================================================== *)

Import JsDate Chart.

Lemma fold_left_push {A B : Type} (g : A -> B) (l : list A) (acc : list B) :
  fold_left (fun combined item => combined ++ [g item]) l acc = acc ++ map g l.
Proof.
  revert acc; induction l as [ | x l IH]; intros acc; simpl.
  - symmetry; apply app_nil_r.
  - rewrite IH, <- app_assoc; reflexivity.
Qed.

(** The [for] loop of [prepareChartData], from index [i] with [n] values
    left: it appends the forecast points of those values. *)
Lemma forLoopFrom_forecast (fc : list num) (n i : nat) (lastDate : Date)
    (combined : list Point.t) :
  (i + n <= length fc)%nat ->
  snd (forLoopFrom
         (fun i '(lastDate, combined) =>
            let lastDate := setMonth lastDate (getMonth lastDate + 1) in
            (lastDate,
             combined ++
             [Point.mk (toLocaleDateString lastDate) None (Some (get fc i))]))
         i n (lastDate, combined))
  = combined ++ forecastPoints lastDate (firstn n (skipn i fc)).
Proof.
  revert i lastDate combined; induction n as [ | n IH];
    intros i lastDate combined Hle.
  - simpl; symmetry; apply app_nil_r.
  - cbn [forLoopFrom]; cbv beta iota zeta.
    rewrite IH by lia.
    rewrite (skipn_get fc i) by lia.
    cbn [firstn forecastPoints].
    rewrite <- app_assoc; reflexivity.
Qed.

Lemma nth_error_last {A : Type} (l : list A) (d : A) :
  l <> [] -> nth_error l (length l - 1) = Some (last l d).
Proof.
  induction l as [ | x l IH]; intros Hne; [congruence | ].
  destruct l as [ | y l]; [reflexivity | ].
  cbn [length Nat.sub] in *.
  rewrite Nat.sub_0_r in *.
  change (nth_error (y :: l) (length l) = Some (last (y :: l) d)).
  apply IH; discriminate.
Qed.

Lemma last_default {A : Type} (l : list A) (d1 d2 : A) :
  l <> [] -> last l d1 = last l d2.
Proof.
  induction l as [ | x l IH]; intros Hne; [congruence | ].
  destruct l as [ | y l]; [reflexivity | ].
  change (last (y :: l) d1 = last (y :: l) d2).
  apply IH; discriminate.
Qed.

(** With a history the start date does not depend on the clock. *)
Lemma startDate_history (now1 now2 : Date) (h : list HistoryRow) :
  h <> [] -> startDate now1 h = startDate now2 h.
Proof.
  intros Hne; destruct h as [ | r h]; [congruence | ].
  unfold startDate; f_equal; apply last_default; discriminate.
Qed.

(** [prepareChartData]: the historical points, then the forecast points
    counted from the start date. *)
Lemma prepareChartData_eq (now : Date) (h : list HistoryRow)
    (fd : option ForecastData) :
  prepareChartData now h fd
  = map historicalPoint h ++
    match fd with
    | Some {| forecast := Some fc |} => forecastPoints (startDate now h) fc
    | _ => []
    end.
Proof.
  unfold prepareChartData.
  change (fold_left _ h [])
    with (fold_left (fun combined item => combined ++ [historicalPoint item])
            h []).
  rewrite (fold_left_push historicalPoint h []); cbn [app].
  assert (Hstart :
    (if (0 <? length h)%nat
     then match nth_error h (length h - 1) with
          | Some item => created_at item
          | None => now
          end
     else now) = startDate now h).
  { destruct h as [ | r h]; [reflexivity | ].
    rewrite (nth_error_last (r :: h) (mkRow now NaN)) by discriminate.
    reflexivity. }
  rewrite Hstart.
  destruct fd as [[[fc | ]] | ]; try (symmetry; apply app_nil_r).
  unfold forLoop; rewrite forLoopFrom_forecast by lia.
  rewrite skipn_0, firstn_all; reflexivity.
Qed.

Lemma forecastPoints_length (d : Date) (fc : list num) :
  length (forecastPoints d fc) = length fc.
Proof.
  revert d; induction fc as [ | v fc IH]; intros d; simpl;
    [reflexivity | rewrite IH; reflexivity].
Qed.

Lemma forecastPoints_forecast (d : Date) (fc : list num) :
  map Point.forecast (forecastPoints d fc) = map Some fc.
Proof.
  revert d; induction fc as [ | v fc IH]; intros d; simpl;
    [reflexivity | rewrite IH; reflexivity].
Qed.

Lemma forecastPoints_historical (d : Date) (fc : list num) :
  Forall (fun pt => Point.historical pt = None) (forecastPoints d fc).
Proof.
  revert d; induction fc as [ | v fc IH]; intros d; simpl;
    constructor; [reflexivity | apply IH].
Qed.

Lemma firstn_app_length {A : Type} (l1 l2 : list A) (n : nat) :
  n = length l1 -> firstn n (l1 ++ l2) = l1.
Proof.
  intros ->; induction l1 as [ | x l1 IH]; simpl;
    [reflexivity | rewrite IH; reflexivity].
Qed.

Lemma skipn_app_length {A : Type} (l1 l2 : list A) (n : nat) :
  n = length l1 -> skipn n (l1 ++ l2) = l2.
Proof.
  intros ->; induction l1 as [ | x l1 IH]; simpl; [reflexivity | exact IH].
Qed.

Lemma DaysInMonth_bounds (y m : Z) : (28 <= DaysInMonth y m <= 31)%Z.
Proof.
  unfold DaysInMonth.
  destruct (m =? 1)%Z; [destruct (InLeapYear y); lia | ].
  destruct (_ || _)%bool; lia.
Qed.

Lemma nextMonth_range (y m : Z) :
  (0 <= m <= 11)%Z -> (0 <= snd (nextMonth y m) <= 11)%Z.
Proof.
  intros Hm; unfold nextMonth; destruct (Z.eqb_spec m 11); cbn [snd]; lia.
Qed.

Lemma prevMonth_range (y m : Z) :
  (0 <= m <= 11)%Z -> (0 <= snd (prevMonth y m) <= 11)%Z.
Proof.
  intros Hm; unfold prevMonth; destruct (Z.eqb_spec m 0); cbn [snd]; lia.
Qed.

(** [carryDays] ends on a date of the calendar when its fuel covers the
    days to carry. *)
Lemma carryDays_valid (fuel : nat) (y m d : Z) :
  (0 <= m <= 11)%Z ->
  (DaysInMonth y m < d -> d <= 28 * Z.of_nat fuel + 28)%Z ->
  (d < 1 -> 1 - d <= 28 * Z.of_nat fuel)%Z ->
  let r := carryDays fuel y m d in
  (0 <= monthIndex r <= 11)%Z /\
  (1 <= dayOfMonth r <= DaysInMonth (fullYear r) (monthIndex r))%Z.
Proof.
  revert y m d; induction fuel as [ | fuel IH]; intros y m d Hm Hup Hdown.
  - cbn [carryDays fullYear monthIndex dayOfMonth].
    pose proof (DaysInMonth_bounds y m); lia.
  - cbn [carryDays].
    destruct (Z.ltb_spec d 1) as [Hlt | Hge].
    + pose proof (prevMonth_range y m Hm) as Hp.
      destruct (prevMonth y m) as [y' m']; cbn [snd] in Hp.
      pose proof (DaysInMonth_bounds y' m').
      apply IH; [exact Hp | lia | lia].
    + destruct (Z.ltb_spec (DaysInMonth y m) d) as [Hover | Hin].
      * pose proof (nextMonth_range y m Hm) as Hn.
        destruct (nextMonth y m) as [y' m']; cbn [snd] in Hn.
        pose proof (DaysInMonth_bounds y m).
        apply IH; [exact Hn | lia | lia].
      * cbn [fullYear monthIndex dayOfMonth]; lia.
Qed.

(** [MakeDay] always ends on a date of the calendar: its fuel is enough. *)
Lemma MakeDay_valid (year month date : Z) :
  let r := MakeDay year month date in
  (0 <= monthIndex r <= 11)%Z /\
  (1 <= dayOfMonth r <= DaysInMonth (fullYear r) (monthIndex r))%Z.
Proof.
  unfold MakeDay; apply carryDays_valid.
  - pose proof (Z.mod_pos_bound month 12); lia.
  - lia.
  - lia.
Qed.

(** Away from the end of the month [setMonth(getMonth() + 1)] is the same
    day of the following month. *)
Lemma setMonth_next_month (y m d : Z) :
  (0 <= m <= 11)%Z -> (1 <= d <= 28)%Z ->
  setMonth (mkDate y m d) (getMonth (mkDate y m d) + 1)
  = mkDate (fst (nextMonth y m)) (snd (nextMonth y m)) d.
Proof.
  intros Hm Hd; unfold setMonth, MakeDay, getMonth; cbn [fullYear monthIndex dayOfMonth].
  rewrite Nat.add_1_r; cbn [carryDays].
  destruct (Z.ltb_spec d 1) as [Hlt | _]; [lia | ].
  assert (Hdim : forall y' m', (28 <= DaysInMonth y' m')%Z).
  { intros y' m'; unfold DaysInMonth.
    destruct (m' =? 1)%Z; [destruct (InLeapYear y'); lia | ].
    destruct (_ || _)%bool; lia. }
  destruct (Z.ltb_spec (DaysInMonth (y + (m + 1) / 12) ((m + 1) mod 12))%Z d)
    as [Hover | _].
  { specialize (Hdim (y + (m + 1) / 12) ((m + 1) mod 12))%Z; lia. }
  unfold nextMonth.
  destruct (Z.eqb_spec m 11) as [-> | Hne]; [reflexivity | ].
  cbn [fst snd].
  rewrite Z.div_small, Z.mod_small by lia.
  f_equal; lia.
Qed.

(* ===================================================================== *)
(** ** The report statistics *)
(* ===================================================================== *)

Import Report.

Lemma reduce_add_prices (h : list PriceRow) :
  reduce (fun sum item => add sum (price item)) zero h
  = fold_right add zero (map price h).
Proof.
  unfold reduce.
  assert (E : forall acc,
             fold_left (fun sum item => add sum (price item)) h acc
             = fold_left add (map price h) acc).
  { induction h as [ | x h IH]; intros acc; simpl; [reflexivity | apply IH]. }
  rewrite E, fold_left_add; apply add_zero_l.
Qed.

Lemma reduce_add_series (f : list num) :
  reduce (fun sum price => add sum price) zero f = fold_right add zero f.
Proof. unfold reduce; rewrite fold_left_add; apply add_zero_l. Qed.

(** The defined branch of [calculateStats]: every cost other than
    [null], [undefined] included. *)
Lemma calculateStats_not_null (h : list PriceRow) (f : list num) (c : Cost) :
  h <> [] -> f <> [] -> c <> CostNull ->
  calculateStats h f c
  = Some {|
      lastHistorical :=
        match nth_error h (length h - 1) with
        | Some item => or_else (price item) zero
        | None => zero
        end;
      lastForecast := c;
      percentChange :=
        Spec.percentChange (Spec.mean f) (Spec.mean (map price h));
      historicalAvg := Spec.mean (map price h);
      forecastAvg := Spec.mean f
    |}.
Proof.
  intros Hh Hf Hc; unfold calculateStats.
  destruct h as [ | r h]; [congruence | ].
  destruct f as [ | x f]; [congruence | ].
  cbn [length Nat.eqb orb].
  rewrite reduce_add_prices, reduce_add_series.
  unfold Spec.percentChange, Spec.mean; rewrite length_map.
  destruct c; [reflexivity | congruence | reflexivity].
Qed.

Lemma calculateStats_defined (h : list PriceRow) (f : list num) (v : num) :
  h <> [] -> f <> [] ->
  calculateStats h f (CostNum v)
  = Some {|
      lastHistorical :=
        match nth_error h (length h - 1) with
        | Some item => or_else (price item) zero
        | None => zero
        end;
      lastForecast := CostNum v;
      percentChange :=
        Spec.percentChange (Spec.mean f) (Spec.mean (map price h));
      historicalAvg := Spec.mean (map price h);
      forecastAvg := Spec.mean f
    |}.
Proof.
  intros Hh Hf; apply calculateStats_not_null; [exact Hh | exact Hf | discriminate].
Qed.

Lemma calculateStats_none (h : list PriceRow) (f : list num) (c : Cost) :
  calculateStats h f c = None <-> h = [] \/ f = [] \/ c = CostNull.
Proof.
  split.
  - intros Hnone.
    destruct h as [ | r h]; [left; reflexivity | ].
    destruct f as [ | x f]; [right; left; reflexivity | ].
    destruct c as [ | | v]; [ | right; right; reflexivity | ];
      rewrite calculateStats_not_null in Hnone by discriminate; discriminate.
  - intros [-> | [-> | ->]]; unfold calculateStats.
    + reflexivity.
    + destruct (length h =? 0)%nat; reflexivity.
    + destruct ((length h =? 0)%nat || (length f =? 0)%nat)%bool; reflexivity.
Qed.

Lemma map_price_pricesOf (l : list R) : map price (pricesOf l) = map Fin l.
Proof. unfold pricesOf; rewrite map_map; reflexivity. Qed.

Lemma mul_signed_inf_100 (s : sign) :
  mul (signed_inf s) (Fin 100) = signed_inf s.
Proof.
  assert (H100 : sgnR 100 = Pos).
  { unfold sgnR; destruct (Rlt_dec 100 0); [lra | ].
    destruct (Rlt_dec 0 100); [reflexivity | lra]. }
  destruct s; simpl; rewrite ?H100; reflexivity.
Qed.

(* ===================================================================== *)
(** ** Metric engine: [calculateMAPE] and [calculateRMSE] *)
(* ===================================================================== *)

(** C1.  For rows whose costs are the non-negative reals [costs] (the
    HistoricalPoint of the data model) and a forecast [f], [calculateMAPE]
    returns the specification's MAPE: the last [min (length costs)
    (length f)] costs are paired in order with [f] from its first value,
    the pairs whose actual cost is 0 are left out of both the sum and the
    count, and the result is the arithmetic mean of
    [|actual - predicted| / actual * 100] over the pairs kept, 0 when none
    is kept. *)
Theorem calculateMAPE_spec (h : list HistoryRow) (costs f : list R) :
  map cost h = map Fin costs ->
  Forall (fun c => 0 <= c) costs ->
  calculateMAPE h (forecastOf f) = Fin (Spec.computeMAPE costs f).
Proof.
  intros Hc Hpos.
  rewrite (calculateMAPE_exact h costs f Hc); f_equal.
  unfold Spec.computeMAPE.
  assert (E : map apeOfSource (filter Spec.validPair (Spec.pairs costs f))
              = map Spec.ape (filter Spec.validPair (Spec.pairs costs f))).
  { apply map_ext_in; intros p Hin.
    apply filter_In in Hin; destruct Hin as [Hin Hv].
    apply validPair_true in Hv.
    apply In_pairs_fst in Hin.
    rewrite Forall_forall in Hpos; specialize (Hpos _ Hin).
    unfold apeOfSource, Spec.ape.
    unfold Rdiv at 1; rewrite Rabs_mult, Rabs_inv.
    rewrite (Rabs_pos_eq (fst p)) by exact Hpos.
    reflexivity. }
  destruct (filter Spec.validPair (Spec.pairs costs f)) as [ | q qs];
    [reflexivity | ].
  cbn [Spec.meanOver] in *; rewrite E; reflexivity.
Qed.

Lemma calculateMAPE_spec_witness :
  let rows := [mkRow (mkDate 2024 0 15) (Fin 100);
               mkRow (mkDate 2024 1 15) (Fin 110)] in
  map cost rows = map Fin [100; 110] /\
  Forall (fun c => 0 <= c) [100; 110] /\
  calculateMAPE rows (forecastOf [105; 115])
  = Fin (Spec.computeMAPE [100; 110] [105; 115]).
Proof.
  intros rows.
  assert (Hpos : Forall (fun c => 0 <= c) [100; 110])
    by (repeat constructor; lra).
  split; [reflexivity | split; [exact Hpos | ]].
  apply (calculateMAPE_spec rows [100; 110] [105; 115]);
    [reflexivity | exact Hpos].
Defined.

(** C2.  For rows whose costs are the reals [costs] and a forecast [f],
    [calculateRMSE] pairs the same trailing window as the MAPE with [f],
    keeps the pairs whose actual cost is 0, and returns the square root of
    the mean of [(actual - predicted)^2] over the pairs, 0 when there is
    no pair. *)
Theorem calculateRMSE_spec (h : list HistoryRow) (costs f : list R) :
  map cost h = map Fin costs ->
  calculateRMSE h (forecastOf f) = Fin (Spec.computeRMSE costs f).
Proof. apply calculateRMSE_exact. Qed.

Lemma calculateRMSE_spec_witness :
  let rows := [mkRow (mkDate 2024 0 15) (Fin 0)] in
  map cost rows = map Fin [0] /\
  calculateRMSE rows (forecastOf [10]) = Fin (Spec.computeRMSE [0] [10]).
Proof.
  intros rows; split; [reflexivity | ].
  apply (calculateRMSE_spec rows [0] [10]); reflexivity.
Defined.

(** C7.  [calculateMAPE] and [calculateRMSE] return 0 on an empty history,
    whatever the forecast, and on an empty forecast, whatever the
    history. *)
Theorem metrics_zero_on_empty :
  (forall fd, calculateMAPE [] fd = zero) /\
  (forall h, calculateMAPE h (mkForecast (Some [])) = zero) /\
  (forall fd, calculateRMSE [] fd = zero) /\
  (forall h, calculateRMSE h (mkForecast (Some [])) = zero).
Proof.
  repeat split; try reflexivity; intros [ | r h]; try reflexivity.
  - unfold calculateMAPE; cbn [length Nat.eqb forecast].
    unfold forEach at 1.
    rewrite (forEachFrom_ext _
      (fun item index s =>
         if (index <? @length num [])%nat
         then mapeStep (cost item) (get [] index) s else s)).
    2:{ intros item index [acc c]; reflexivity. }
    rewrite (forEach_empty_forecast_from mapeStep); reflexivity.
  - unfold calculateRMSE; cbn [length Nat.eqb forecast].
    unfold forEach at 1.
    rewrite (forEachFrom_ext _
      (fun item index s =>
         if (index <? @length num [])%nat
         then rmseStep (cost item) (get [] index) s else s)).
    2:{ intros item index [acc c]; reflexivity. }
    rewrite (forEach_empty_forecast_from rmseStep); reflexivity.
Qed.



Module Binary64.

Import PrimFloat.

Local Open Scope float_scope.

#[local] Set Warnings "-inexact-float".


(** At ordinary prices the last digits move: for the cost 0.1, the
    forecast 0.3 and [c] = 3 the two results are different numbers. *)
Example calculateMAPE_scale_rounding :
  (Chart64.calculateMAPE
     (map (Chart64.scaleRow 3) [Chart64.mkRow (JsDate.mkDate 2024 0 15) 0.1])
     (Chart64.scaleForecast 3 (Chart64.mkForecast (Some [0.3])))
   =? Chart64.calculateMAPE
        [Chart64.mkRow (JsDate.mkDate 2024 0 15) 0.1]
        (Chart64.mkForecast (Some [0.3])))
  = false.
Proof. vm_compute; reflexivity. Qed.

(** The worked example of the specification on binary64 numbers: the
    mean of 5 and 4.5454.... *)
Example calculateMAPE64_example :
  Chart64.calculateMAPE
    [Chart64.mkRow (JsDate.mkDate 2024 0 15) 100;
     Chart64.mkRow (JsDate.mkDate 2024 1 15) 110]
    (Chart64.mkForecast (Some [105; 115]))
  = (5 + 500 / 110) / 2.
Proof. vm_compute; reflexivity. Qed.

End Binary64.

(** The worked examples of the specification (section 8). *)
Example computeMAPE_example :
  Spec.computeMAPE [100; 110] [105; 115] = (5 + 500 / 110) / 2.
Proof.
  unfold Spec.computeMAPE, Spec.pairs, Spec.tail, Spec.lastn.
  cbn [length Nat.min Nat.sub skipn combine filter].
  unfold Spec.validPair; cbn [fst].
  destruct (Req_dec_T 100 0) as [E | _]; [lra | ].
  destruct (Req_dec_T 110 0) as [E | _]; [lra | ].
  unfold Spec.meanOver, Spec.meanR, Spec.ape; cbn [map length fst snd].
  rewrite !sumR_cons.
  rewrite (Rabs_minus_sym 100 105), (Rabs_minus_sym 110 115).
  rewrite (Rabs_pos_eq (105 - 100)), (Rabs_pos_eq (115 - 110)) by lra.
  simpl; lra.
Qed.

Example calculateRMSE_example :
  calculateRMSE [mkRow (mkDate 2024 0 15) (Fin 100);
                 mkRow (mkDate 2024 1 15) (Fin 110)]
                (forecastOf [105; 115]) = Fin 5.
Proof.
  rewrite (calculateRMSE_exact _ [100; 110] [105; 115]) by reflexivity.
  f_equal; unfold Spec.computeRMSE, Spec.pairs, Spec.tail, Spec.lastn.
  cbn [length Nat.min Nat.sub skipn combine].
  unfold Spec.meanR, Spec.squaredError; cbn [map length fst snd].
  rewrite !sumR_cons.
  replace (_ / _) with (5 * 5) by (simpl; lra).
  apply sqrt_square; lra.
Qed.

Example zero_actual_example :
  let rows := [mkRow (mkDate 2024 0 15) (Fin 0)] in
  calculateMAPE rows (forecastOf [10]) = Fin 0 /\
  calculateRMSE rows (forecastOf [10]) = Fin 10.
Proof.
  intros rows; split.
  - rewrite (calculateMAPE_exact rows [0] [10]) by reflexivity.
    f_equal; unfold Spec.pairs, Spec.tail, Spec.lastn.
    cbn [length Nat.min Nat.sub skipn combine filter].
    unfold Spec.validPair; cbn [fst].
    destruct (Req_dec_T 0 0) as [_ | NE]; [reflexivity | lra].
  - rewrite (calculateRMSE_exact rows [0] [10]) by reflexivity.
    f_equal; unfold Spec.computeRMSE, Spec.pairs, Spec.tail, Spec.lastn.
    cbn [length Nat.min Nat.sub skipn combine].
    unfold Spec.meanR, Spec.squaredError; cbn [map length fst snd].
    rewrite !sumR_cons.
    replace (_ / _) with (10 * 10) by (simpl; lra).
    apply sqrt_square; lra.
Qed.

(* ===================================================================== *)
(** ** Series aligner: [prepareChartData] *)
(* ===================================================================== *)

(** C6.  [prepareChartData] emits [length h + length f] points: the first
    [length h] carry the historical costs in order and no forecast, the
    last [length f] carry the forecast values in order and no historical
    cost. *)
Theorem prepareChartData_shape (now : Date) (h : list HistoryRow)
    (f : list num) :
  let out := prepareChartData now h (Some (mkForecast (Some f))) in
  length out = (length h + length f)%nat /\
  map Point.historical (firstn (length h) out)
  = map (fun item => Some (cost item)) h /\
  Forall (fun pt => Point.forecast pt = None) (firstn (length h) out) /\
  map Point.forecast (skipn (length h) out) = map Some f /\
  Forall (fun pt => Point.historical pt = None) (skipn (length h) out).
Proof.
  intros out; subst out; rewrite prepareChartData_eq.
  rewrite firstn_app_length, skipn_app_length by (rewrite length_map; reflexivity).
  repeat split.
  - rewrite length_app, length_map, forecastPoints_length; reflexivity.
  - rewrite map_map; reflexivity.
  - apply Forall_forall; intros pt Hin.
    apply in_map_iff in Hin; destruct Hin as [item [<- _]]; reflexivity.
  - apply forecastPoints_forecast.
  - apply forecastPoints_historical.
Qed.

(** C3, at the end of a month.  With a last historical timestamp on 31
    January 2024 the first forecast point is labelled March, not February:
    [setMonth] carries the days that February lacks over into March, and
    the labels that follow count on from there.  With a last historical
    timestamp on 31 December 2023 the first two forecast labels are
    January and March, two months apart. *)
Theorem prepareChartData_month_end (now : Date) :
  map Point.date
    (prepareChartData now [mkRow (mkDate 2024 0 31) (Fin 100)]
       (Some (mkForecast (Some [Fin 105; Fin 110]))))
  = ["Jan 24"; "Mar 24"; "Apr 24"]%string /\
  map Point.date
    (prepareChartData now [mkRow (mkDate 2023 11 31) (Fin 100)]
       (Some (mkForecast (Some [Fin 105; Fin 110]))))
  = ["Dec 23"; "Jan 24"; "Mar 24"]%string.
Proof. rewrite !prepareChartData_eq; split; reflexivity. Qed.

(** C8 as stated fails: with an empty history the labels are counted from
    [new Date()], so two calls with equal arguments in different months
    differ. *)
Lemma prepareChartData_clock_counterexample :
  prepareChartData (mkDate 2024 0 15) [] (Some (mkForecast (Some [Fin 1])))
  <> prepareChartData (mkDate 2024 1 15) [] (Some (mkForecast (Some [Fin 1]))).
Proof.
  intros H; apply (f_equal (map Point.date)) in H.
  rewrite !prepareChartData_eq in H; lazy in H; discriminate H.
Qed.

(** C8, amended.  Two calls of [prepareChartData] with the same history
    and the same forecast give the same series when the history is not
    empty, or when both calls read the same current date; the current date
    is the only input besides the arguments. *)
Theorem prepareChartData_deterministic (now1 now2 : Date)
    (h : list HistoryRow) (fd : option ForecastData) :
  h <> [] \/ now1 = now2 ->
  prepareChartData now1 h fd = prepareChartData now2 h fd.
Proof.
  intros [Hne | ->]; [ | reflexivity].
  rewrite !prepareChartData_eq.
  rewrite (startDate_history now1 now2 h Hne); reflexivity.
Qed.

Lemma prepareChartData_deterministic_witness :
  let h := [mkRow (mkDate 2024 0 15) (Fin 100)] in
  let fd := Some (mkForecast (Some [Fin 105; Fin 110])) in
  prepareChartData (mkDate 2024 5 1) h fd
  = prepareChartData (mkDate 2025 8 30) h fd.
Proof.
  intros h fd.
  apply (prepareChartData_deterministic (mkDate 2024 5 1) (mkDate 2025 8 30) h fd).
  left; discriminate.
Defined.

(* ===================================================================== *)
(** ** Report aggregator: [calculateStats] *)
(* ===================================================================== *)

(** C4, on an undefined cost.  A response with two forecast values
    leaves [undefined] in [forecastedCost], as index 5 is past its end;
    the test [forecastedCost === null] lets it through, and with a
    non-empty history [calculateStats] returns statistics whose
    [lastForecast] is [undefined], where the cost is not a defined
    number. *)
Theorem calculateStats_undefined_cost :
  let st :=
    ReportFetch.fetchForecast
      (ReportFetch.Body (Some [Fin 105; Fin 115])) [] (pricesOf [100; 110])
      (ReportFetch.mkState (Some []) CostNull) in
  st = ReportFetch.mkState (Some [Fin 105; Fin 115]) CostUndefined /\
  exists stats,
    calculateStats (pricesOf [100; 110]) [Fin 105; Fin 115]
                   (ReportFetch.forecastedCost st) = Some stats /\
    lastForecast stats = CostUndefined.
Proof.
  intros st; split; [reflexivity | ].
  eexists; split; reflexivity.
Qed.

(** C5 as stated fails: for the history [0] and the forecast [10] the
    historical average is 0, and [calculateStats] still returns
    statistics, with a [percentChange] that is neither missing nor [NaN]:
    it is [+Infinity], the quotient [10 / 0] carried through. *)
Lemma calculateStats_no_sentinel_counterexample :
  Spec.meanR [0] = 0 /\
  ~ Spec.reportsSentinel
      (calculateStats (pricesOf [0]) (map Fin [10]) (CostNum (Fin 10))).
Proof.
  split; [unfold Spec.meanR; simpl; lra | ].
  rewrite calculateStats_defined by discriminate.
  unfold Spec.reportsSentinel; cbn [percentChange].
  rewrite map_price_pricesOf, !mean_Fin by discriminate.
  unfold Spec.percentChange; cbn [sub neg add div].
  replace (Spec.meanR [0]) with 0 by (unfold Spec.meanR; simpl; lra).
  destruct (Req_dec_T 0 0) as [_ | NE]; [ | lra].
  rewrite mul_signed_inf_100.
  replace (sgnR (Spec.meanR [10] + - 0)) with Pos; [cbn; discriminate | ].
  unfold sgnR.
  assert (0 < Spec.meanR [10] + - 0) by (unfold Spec.meanR; simpl; lra).
  destruct (Rlt_dec _ 0); [lra | ].
  destruct (Rlt_dec 0 _); [reflexivity | lra].
Qed.

(** C5, amended.  When the historical average is 0 and the other
    preconditions hold, [calculateStats] makes no check of it: it returns
    statistics with [historicalAvg] 0 and with the unguarded quotient as
    [percentChange], which is [+Infinity] for a positive forecast average,
    [-Infinity] for a negative one and [NaN] for a zero one. *)
Theorem calculateStats_zero_average (hr fr : list R) (v : num) :
  hr <> [] -> fr <> [] -> Spec.meanR hr = 0 ->
  exists st,
    calculateStats (pricesOf hr) (map Fin fr) (CostNum v) = Some st /\
    historicalAvg st = Fin 0 /\
    (0 < Spec.meanR fr -> percentChange st = PInf) /\
    (Spec.meanR fr < 0 -> percentChange st = NInf) /\
    (Spec.meanR fr = 0 -> percentChange st = NaN).
Proof.
  intros Hh Hf Hz.
  eexists; split.
  { apply calculateStats_defined.
    - destruct hr; [congruence | discriminate].
    - destruct fr; [congruence | discriminate]. }
  cbn [historicalAvg percentChange].
  rewrite map_price_pricesOf, !mean_Fin, Hz by assumption.
  split; [reflexivity | ].
  unfold Spec.percentChange; cbn [sub neg add div].
  destruct (Req_dec_T 0 0) as [_ | NE]; [ | lra].
  rewrite mul_signed_inf_100; unfold sgnR.
  repeat split; intros Hs;
    destruct (Rlt_dec (Spec.meanR fr + - 0) 0); try lra; try reflexivity;
    destruct (Rlt_dec 0 (Spec.meanR fr + - 0)); try lra; reflexivity.
Qed.

Lemma calculateStats_zero_average_witness :
  exists st,
    calculateStats (pricesOf [0]) (map Fin [10]) (CostNum (Fin 10)) = Some st /\
    historicalAvg st = Fin 0 /\
    (0 < Spec.meanR [10] -> percentChange st = PInf) /\
    (Spec.meanR [10] < 0 -> percentChange st = NInf) /\
    (Spec.meanR [10] = 0 -> percentChange st = NaN).
Proof.
  apply (calculateStats_zero_average [0] [10] (Fin 10));
    try discriminate.
  unfold Spec.meanR; simpl; lra.
Defined.

(** C10.  A forecasted cost of 0 is a defined number for
    [calculateStats]: with a non-empty history and a non-empty forecast
    series it returns statistics whose [lastForecast] is 0. *)
Theorem calculateStats_zero_cost (h : list PriceRow) (f : list num) :
  h <> [] -> f <> [] ->
  exists st,
    calculateStats h f (CostNum zero) = Some st /\ lastForecast st = CostNum zero.
Proof.
  intros Hh Hf.
  eexists; split; [apply calculateStats_defined; assumption | reflexivity].
Qed.

Lemma calculateStats_zero_cost_witness :
  exists st,
    calculateStats (pricesOf [100; 110]) (map Fin [105; 115]) (CostNum zero)
    = Some st /\ lastForecast st = CostNum zero.
Proof.
  apply (calculateStats_zero_cost (pricesOf [100; 110]) (map Fin [105; 115]));
    discriminate.
Defined.

(* ===================================================================== *)
(** ** Further properties of the metric engine *)
(* ===================================================================== *)

(** The two metrics as folds over the paired window, for arbitrary
    numbers. *)
Lemma calculateMAPE_fold (h : list HistoryRow) (fc : list num) :
  calculateMAPE h (mkForecast (Some fc))
  = mapeResult
      (fold_left (fun s p => mapeStep (fst p) (snd p) s)
                 (pairedWindow h fc) (zero, O)).
Proof.
  unfold calculateMAPE, pairedWindow.
  destruct h as [ | r h].
  - unfold slice; rewrite skipn_nil; reflexivity.
  - cbn [length Nat.eqb forecast]; unfold forEach.
    rewrite (forEachFrom_ext _
      (fun item index s =>
         if (index <? length fc)%nat
         then mapeStep (cost item) (get fc index) s else s)).
    2:{ intros item index [te c]; unfold mapeStep; simpl.
        destruct (index <? _)%nat; [ | reflexivity].
        destruct (strict_neq _ _); reflexivity. }
    rewrite (forEachFrom_guarded _ _ fc cost mapeStep), skipn_0.
    destruct (fold_left _ _ _) as [te c]; reflexivity.
Qed.

Lemma calculateRMSE_fold (h : list HistoryRow) (fc : list num) :
  calculateRMSE h (mkForecast (Some fc))
  = rmseResult
      (fold_left (fun s p => rmseStep (fst p) (snd p) s)
                 (pairedWindow h fc) (zero, O)).
Proof.
  unfold calculateRMSE, pairedWindow.
  destruct h as [ | r h].
  - unfold slice; rewrite skipn_nil; reflexivity.
  - cbn [length Nat.eqb forecast]; unfold forEach.
    rewrite (forEachFrom_ext _
      (fun item index s =>
         if (index <? length fc)%nat
         then rmseStep (cost item) (get fc index) s else s)).
    2:{ intros item index [te c]; unfold rmseStep; simpl.
        destruct (index <? _)%nat; reflexivity. }
    rewrite (forEachFrom_guarded _ _ fc cost rmseStep), skipn_0.
    destruct (fold_left _ _ _) as [te c]; reflexivity.
Qed.

Lemma slice_neg_app {A : Type} (older l : list A) (n : nat) :
  (0 < n <= length l)%nat ->
  slice (- Z.of_nat n) (older ++ l) = slice (- Z.of_nat n) l.
Proof.
  intros Hn; unfold slice; rewrite length_app.
  destruct (Z.ltb_spec (- Z.of_nat n) 0) as [_ | Hge]; [ | lia].
  replace (Z.to_nat (Z.max (Z.of_nat (length older + length l) + - Z.of_nat n) 0))
    with (length older + (length l - n))%nat by lia.
  replace (Z.to_nat (Z.max (Z.of_nat (length l) + - Z.of_nat n) 0))
    with (length l - n)%nat by lia.
  rewrite (Nat.add_comm (length older)), <- skipn_skipn.
  rewrite skipn_app_length by reflexivity; reflexivity.
Qed.

Lemma pairedWindow_older (older h : list HistoryRow) (fc : list num) :
  (length fc <= length h)%nat ->
  pairedWindow (older ++ h) fc = pairedWindow h fc.
Proof.
  intros Hle; unfold pairedWindow.
  destruct fc as [ | v fc]; [rewrite !combine_nil; reflexivity | ].
  rewrite slice_neg_app by (simpl in *; lia); reflexivity.
Qed.

Lemma combine_app_r_short {A B : Type} (xs : list A) (ys extra : list B) :
  (length xs <= length ys)%nat ->
  combine xs (ys ++ extra) = combine xs ys.
Proof.
  revert ys; induction xs as [ | x xs IH]; intros ys Hle; [reflexivity | ].
  destruct ys as [ | y ys]; simpl in *; [lia | ].
  rewrite IH by lia; reflexivity.
Qed.

Lemma slice_whole {A : Type} (l : list A) (n : nat) :
  (length l <= n)%nat -> slice (- Z.of_nat n) l = l.
Proof.
  intros Hle; unfold slice.
  destruct (Z.ltb_spec (- Z.of_nat n) 0) as [Hlt | Hge].
  - replace (Z.to_nat _) with O by lia; reflexivity.
  - replace (Z.to_nat _) with O by lia; reflexivity.
Qed.

Lemma pairedWindow_extra (h : list HistoryRow) (fc extra : list num) :
  (length h <= length fc)%nat ->
  pairedWindow h (fc ++ extra) = pairedWindow h fc.
Proof.
  intros Hle; unfold pairedWindow.
  rewrite !slice_whole by (rewrite ?length_app; lia).
  apply combine_app_r_short; rewrite length_map; exact Hle.
Qed.

(** X1.  History older than the trailing window is ignored.  When the
    history [h] is at least as long as the forecast, rows placed before it
    change neither metric. *)
Theorem metrics_ignore_older_history (older h : list HistoryRow)
    (fc : list num) :
  (length fc <= length h)%nat ->
  calculateMAPE (older ++ h) (mkForecast (Some fc))
  = calculateMAPE h (mkForecast (Some fc)) /\
  calculateRMSE (older ++ h) (mkForecast (Some fc))
  = calculateRMSE h (mkForecast (Some fc)).
Proof.
  intros Hle.
  rewrite !calculateMAPE_fold, !calculateRMSE_fold.
  rewrite (pairedWindow_older older h fc Hle); split; reflexivity.
Qed.

Lemma metrics_ignore_older_history_witness :
  let h := [mkRow (mkDate 2024 1 15) (Fin 110)] in
  let older := [mkRow (mkDate 2024 0 15) (Fin 100)] in
  (length [Fin 115] <= length h)%nat /\
  calculateMAPE (older ++ h) (mkForecast (Some [Fin 115]))
  = calculateMAPE h (mkForecast (Some [Fin 115])) /\
  calculateRMSE (older ++ h) (mkForecast (Some [Fin 115]))
  = calculateRMSE h (mkForecast (Some [Fin 115])).
Proof.
  intros h older.
  assert (Hle : (length [Fin 115] <= length h)%nat) by (simpl; lia).
  split; [exact Hle | ].
  apply (metrics_ignore_older_history older h [Fin 115] Hle).
Defined.

(** X2.  Forecast values beyond the history are ignored.  When the forecast
    [fc] is at least as long as the history, values appended to it change
    neither metric. *)
Theorem metrics_ignore_extra_forecast (h : list HistoryRow)
    (fc extra : list num) :
  (length h <= length fc)%nat ->
  calculateMAPE h (mkForecast (Some (fc ++ extra)))
  = calculateMAPE h (mkForecast (Some fc)) /\
  calculateRMSE h (mkForecast (Some (fc ++ extra)))
  = calculateRMSE h (mkForecast (Some fc)).
Proof.
  intros Hle.
  rewrite !calculateMAPE_fold, !calculateRMSE_fold.
  rewrite (pairedWindow_extra h fc extra Hle); split; reflexivity.
Qed.

Lemma metrics_ignore_extra_forecast_witness :
  let h := [mkRow (mkDate 2024 1 15) (Fin 110)] in
  (length h <= length [Fin 115])%nat /\
  calculateMAPE h (mkForecast (Some ([Fin 115] ++ [Fin 120; Fin 125])))
  = calculateMAPE h (mkForecast (Some [Fin 115])) /\
  calculateRMSE h (mkForecast (Some ([Fin 115] ++ [Fin 120; Fin 125])))
  = calculateRMSE h (mkForecast (Some [Fin 115])).
Proof.
  intros h.
  assert (Hle : (length h <= length [Fin 115])%nat) by (simpl; lia).
  split; [exact Hle | ].
  apply (metrics_ignore_extra_forecast h [Fin 115] [Fin 120; Fin 125] Hle).
Defined.

Lemma sumR_nonneg (l : list R) :
  (forall x, In x l -> 0 <= x) -> 0 <= Spec.sumR l.
Proof.
  induction l as [ | x l IH]; intros Hpos; [simpl; lra | ].
  rewrite sumR_cons.
  assert (0 <= x) by (apply Hpos; left; reflexivity).
  assert (0 <= Spec.sumR l) by (apply IH; intros z Hz; apply Hpos; right; exact Hz).
  lra.
Qed.

Lemma sumR_zero_iff (l : list R) :
  (forall x, In x l -> 0 <= x) ->
  Spec.sumR l = 0 <-> (forall x, In x l -> x = 0).
Proof.
  induction l as [ | x l IH]; intros Hpos.
  - split; [intros _ z [] | reflexivity].
  - rewrite sumR_cons.
    assert (Hx : 0 <= x) by (apply Hpos; left; reflexivity).
    assert (Hl : forall z, In z l -> 0 <= z)
      by (intros z Hz; apply Hpos; right; exact Hz).
    pose proof (sumR_nonneg l Hl) as Hs.
    specialize (IH Hl); split.
    + intros Hsum z [<- | Hz]; [lra | ].
      apply IH; [lra | exact Hz].
    + intros Hall.
      assert (x = 0) by (apply Hall; left; reflexivity).
      assert (Spec.sumR l = 0)
        by (apply IH; intros z Hz; apply Hall; right; exact Hz).
      lra.
Qed.

(** A mean of non-negative errors is non-negative, and 0 exactly when
    every error is 0. *)
Lemma meanOver_nonneg_zero (err : R * R -> R) (ps : list (R * R)) :
  (forall p, 0 <= err p) ->
  0 <= Spec.meanOver err ps /\
  (Spec.meanOver err ps = 0 <-> forall p, In p ps -> err p = 0).
Proof.
  intros Herr.
  destruct ps as [ | q qs].
  - split; [simpl; lra | split; [intros _ p [] | reflexivity]].
  - unfold Spec.meanOver, Spec.meanR; rewrite length_map.
    set (l := map err (q :: qs)).
    assert (Hn : 0 < INR (length (q :: qs))) by (apply lt_0_INR; simpl; lia).
    assert (Hl : forall x, In x l -> 0 <= x).
    { intros x Hx; apply in_map_iff in Hx; destruct Hx as [p [<- _]]; apply Herr. }
    pose proof (sumR_nonneg l Hl) as Hs.
    pose proof (sumR_zero_iff l Hl) as Hz.
    assert (Hinv : 0 < / INR (length (q :: qs))) by (apply Rinv_0_lt_compat; exact Hn).
    split.
    + apply Rmult_le_pos; lra.
    + split.
      * intros Hm p Hp.
        assert (Hsum : Spec.sumR l = 0).
        { unfold Rdiv in Hm; apply Rmult_integral in Hm; lra. }
        apply Hz; [exact Hsum | apply in_map; exact Hp].
      * intros Hall.
        assert (Hsum : Spec.sumR l = 0).
        { apply Hz; intros x Hx.
          apply in_map_iff in Hx; destruct Hx as [p [<- Hp]]; apply Hall; exact Hp. }
        rewrite Hsum; unfold Rdiv; ring.
Qed.

Lemma apeOfSource_nonneg (p : R * R) : 0 <= apeOfSource p.
Proof.
  unfold apeOfSource.
  pose proof (Rabs_pos ((fst p - snd p) / fst p)); lra.
Qed.

Lemma apeOfSource_zero (p : R * R) :
  fst p <> 0 -> (apeOfSource p = 0 <-> fst p = snd p).
Proof.
  intros Hne; unfold apeOfSource; split.
  - intros Hz.
    destruct (Req_dec_T ((fst p - snd p) / fst p) 0) as [E | NE].
    + unfold Rdiv in E; apply Rmult_integral in E; destruct E as [E | E]; [lra | ].
      exfalso; revert E; apply Rinv_neq_0_compat; exact Hne.
    + apply Rabs_no_R0 in NE; lra.
  - intros <-.
    replace (fst p - fst p) with 0 by lra.
    unfold Rdiv; rewrite Rmult_0_l, Rabs_R0; lra.
Qed.

Lemma squaredError_nonneg (p : R * R) : 0 <= Spec.squaredError p.
Proof. unfold Spec.squaredError; apply pow2_ge_0. Qed.

Lemma squaredError_zero (p : R * R) :
  Spec.squaredError p = 0 <-> fst p = snd p.
Proof.
  unfold Spec.squaredError; split.
  - intros Hz; simpl in Hz; rewrite Rmult_1_r in Hz.
    apply Rmult_integral in Hz; lra.
  - intros <-; simpl; ring.
Qed.

Lemma computeRMSE_meanOver (costs f : list R) :
  Spec.computeRMSE costs f
  = R_sqrt.sqrt (Spec.meanOver Spec.squaredError (Spec.pairs costs f)).
Proof.
  unfold Spec.computeRMSE.
  destruct (Spec.pairs costs f); [simpl; symmetry; apply sqrt_0 | reflexivity].
Qed.

(** X3.  On finite inputs the MAPE is a finite non-negative number, also
    for negative costs, and it is 0 exactly when every pair of the window
    with a non-zero actual cost has a forecast equal to that cost. *)
Theorem calculateMAPE_nonneg_zero (h : list HistoryRow) (costs f : list R) :
  map cost h = map Fin costs ->
  exists r,
    calculateMAPE h (forecastOf f) = Fin r /\
    0 <= r /\
    (r = 0 <->
     forall a p, In (a, p) (combine (slice (- Z.of_nat (length f)) costs) f) ->
                 a <> 0 -> a = p).
Proof.
  intros Hc; eexists; split; [apply (calculateMAPE_exact h costs f Hc) | ].
  rewrite combine_slice_tail.
  destruct (meanOver_nonneg_zero apeOfSource
              (filter Spec.validPair (Spec.pairs costs f)) apeOfSource_nonneg)
    as [Hpos Hzero].
  split; [exact Hpos | ].
  rewrite Hzero; split.
  - intros Hall a p Hin Hne.
    apply (apeOfSource_zero (a, p) Hne).
    apply Hall; apply filter_In; split; [exact Hin | ].
    apply validPair_true; exact Hne.
  - intros Hall [a p] Hin.
    apply filter_In in Hin; destruct Hin as [Hin Hv].
    apply validPair_true in Hv.
    apply (apeOfSource_zero (a, p) Hv); apply Hall; assumption.
Qed.

Lemma calculateMAPE_nonneg_zero_witness :
  let rows := [mkRow (mkDate 2024 0 15) (Fin (-100));
               mkRow (mkDate 2024 1 15) (Fin 110)] in
  map cost rows = map Fin [-100; 110] /\
  exists r,
    calculateMAPE rows (forecastOf [105; 115]) = Fin r /\
    0 <= r /\
    (r = 0 <->
     forall a p,
       In (a, p) (combine (slice (- Z.of_nat (length [105; 115])) [-100; 110])
                          [105; 115]) ->
       a <> 0 -> a = p).
Proof.
  intros rows; split; [reflexivity | ].
  apply (calculateMAPE_nonneg_zero rows [-100; 110] [105; 115]); reflexivity.
Defined.

(** X4.  On finite inputs the RMSE is a finite non-negative number, and it
    is 0 exactly when every pair of the window has a forecast equal to the
    actual cost. *)
Theorem calculateRMSE_nonneg_zero (h : list HistoryRow) (costs f : list R) :
  map cost h = map Fin costs ->
  exists r,
    calculateRMSE h (forecastOf f) = Fin r /\
    0 <= r /\
    (r = 0 <->
     forall a p, In (a, p) (combine (slice (- Z.of_nat (length f)) costs) f) ->
                 a = p).
Proof.
  intros Hc; eexists; split; [apply (calculateRMSE_exact h costs f Hc) | ].
  rewrite combine_slice_tail, computeRMSE_meanOver.
  destruct (meanOver_nonneg_zero Spec.squaredError
              (Spec.pairs costs f) squaredError_nonneg) as [Hpos Hzero].
  split; [apply sqrt_pos | ].
  split.
  - intros Hs a p Hin.
    apply sqrt_eq_0 in Hs; [ | exact Hpos].
    apply (squaredError_zero (a, p)).
    apply (proj1 Hzero Hs); exact Hin.
  - intros Hall.
    replace (Spec.meanOver Spec.squaredError (Spec.pairs costs f)) with 0;
      [apply sqrt_0 | ].
    symmetry; apply Hzero; intros [a p] Hin.
    apply squaredError_zero; apply Hall; exact Hin.
Qed.

Lemma calculateRMSE_nonneg_zero_witness :
  let rows := [mkRow (mkDate 2024 0 15) (Fin 100);
               mkRow (mkDate 2024 1 15) (Fin 110)] in
  map cost rows = map Fin [100; 110] /\
  exists r,
    calculateRMSE rows (forecastOf [100; 110]) = Fin r /\
    0 <= r /\
    (r = 0 <->
     forall a p,
       In (a, p) (combine (slice (- Z.of_nat (length [100; 110])) [100; 110])
                          [100; 110]) ->
       a = p).
Proof.
  intros rows; split; [reflexivity | ].
  apply (calculateRMSE_nonneg_zero rows [100; 110] [100; 110]); reflexivity.
Defined.

Lemma squaredError_scale (c : R) (p : R * R) :
  Spec.squaredError (scalePair c p) = c * c * Spec.squaredError p.
Proof. unfold Spec.squaredError, scalePair; cbn [fst snd]; ring. Qed.

Lemma sumR_map_mult (k : R) (l : list R) :
  Spec.sumR (map (Rmult k) l) = k * Spec.sumR l.
Proof.
  induction l as [ | x l IH]; cbn [map]; [simpl; ring | ].
  rewrite !sumR_cons, IH; ring.
Qed.

Lemma meanR_map_mult (k : R) (l : list R) :
  Spec.meanR (map (Rmult k) l) = k * Spec.meanR l.
Proof.
  unfold Spec.meanR; rewrite sumR_map_mult, length_map.
  unfold Rdiv; ring.
Qed.

Lemma meanOver_squaredError_scale (c : R) (ps : list (R * R)) :
  Spec.meanOver Spec.squaredError (map (scalePair c) ps)
  = c * c * Spec.meanOver Spec.squaredError ps.
Proof.
  destruct ps as [ | q qs]; [simpl; ring | ].
  cbn [map Spec.meanOver].
  change (Spec.squaredError (scalePair c q)
          :: map Spec.squaredError (map (scalePair c) qs))
    with (map Spec.squaredError (map (scalePair c) (q :: qs))).
  rewrite map_map.
  rewrite (map_ext _ (fun p => c * c * Spec.squaredError p))
    by (intros p; apply squaredError_scale).
  rewrite <- (map_map Spec.squaredError (Rmult (c * c))).
  apply meanR_map_mult.
Qed.

(** X5.  The RMSE is homogeneous.  Multiplying every cost and every forecast
    value by a real [c] multiplies the RMSE by [|c|]. *)
Theorem calculateRMSE_scale (h : list HistoryRow) (costs f : list R) (c : R) :
  map cost h = map Fin costs ->
  exists r,
    calculateRMSE h (forecastOf f) = Fin r /\
    calculateRMSE (map (scaleRow c) h) (scaleForecast c (forecastOf f))
    = Fin (Rabs c * r).
Proof.
  intros Hc; eexists; split; [apply (calculateRMSE_exact h costs f Hc) | ].
  assert (Hs : map cost (map (scaleRow c) h) = map Fin (map (Rmult c) costs)).
  { rewrite <- mul_Fin_map, <- Hc, !map_map; reflexivity. }
  assert (Hf : scaleForecast c (forecastOf f) = forecastOf (map (Rmult c) f)).
  { unfold scaleForecast, forecastOf; cbn [forecast option_map].
    rewrite mul_Fin_map; reflexivity. }
  rewrite Hf, (calculateRMSE_exact _ _ _ Hs); f_equal.
  rewrite !computeRMSE_meanOver, pairs_scale, meanOver_squaredError_scale.
  destruct (meanOver_nonneg_zero Spec.squaredError
              (Spec.pairs costs f) squaredError_nonneg) as [Hpos _].
  rewrite sqrt_mult_alt by (apply Rle_0_sqr).
  f_equal; apply sqrt_Rsqr_abs.
Qed.

Lemma calculateRMSE_scale_witness :
  let rows := [mkRow (mkDate 2024 0 15) (Fin 100)] in
  map cost rows = map Fin [100] /\
  exists r,
    calculateRMSE rows (forecastOf [105]) = Fin r /\
    calculateRMSE (map (scaleRow (-2)) rows)
                  (scaleForecast (-2) (forecastOf [105]))
    = Fin (Rabs (-2) * r).
Proof.
  intros rows; split; [reflexivity | ].
  apply (calculateRMSE_scale rows [100] [105] (-2)); reflexivity.
Defined.

(* ===================================================================== *)
(** ** Further properties of the series aligner *)
(* ===================================================================== *)

Lemma nextMonth_closed (y m : Z) :
  (0 <= m <= 11)%Z ->
  nextMonth y m = ((y + (m + 1) / 12)%Z, ((m + 1) mod 12)%Z).
Proof.
  intros Hm; unfold nextMonth.
  destruct (Z.eqb_spec m 11) as [-> | Hne]; [reflexivity | ].
  rewrite Z.div_small, Z.mod_small by lia.
  f_equal; lia.
Qed.

Lemma labelAfter_next (y m k : Z) :
  (0 <= m <= 11)%Z ->
  labelAfter (fst (nextMonth y m)) (snd (nextMonth y m)) k
  = labelAfter y m (k + 1).
Proof.
  intros Hm; unfold nextMonth, labelAfter.
  destruct (Z.eqb_spec m 11) as [-> | Hne]; cbn [fst snd].
  - replace (11 + (k + 1))%Z with (0 + k + 1 * 12)%Z by lia.
    rewrite Z.div_add, Z.mod_add by lia.
    do 2 f_equal; lia.
  - replace (m + 1 + k)%Z with (m + (k + 1))%Z by lia; reflexivity.
Qed.

Lemma labelAfter_0 (y m d : Z) :
  (0 <= m <= 11)%Z ->
  toLocaleDateString (mkDate y m d) = labelAfter y m 0.
Proof.
  intros Hm; unfold labelAfter, toLocaleDateString; cbn [monthIndex fullYear].
  rewrite Z.add_0_r, Z.div_small, Z.mod_small, Z.add_0_r by lia; reflexivity.
Qed.

(** Away from the end of the month the forecast points are labelled with
    the months that follow the cursor, one after the other. *)
Lemma forecastPoints_labels (fc : list num) (y m d : Z) :
  (0 <= m <= 11)%Z -> (1 <= d <= 28)%Z ->
  map Point.date (forecastPoints (mkDate y m d) fc)
  = map (fun k => labelAfter y m (Z.of_nat k + 1)) (seq 0 (length fc)).
Proof.
  revert y m; induction fc as [ | v fc IH]; intros y m Hm Hd; [reflexivity | ].
  cbn [forecastPoints length seq map Point.date].
  rewrite (setMonth_next_month y m d Hm Hd).
  pose proof (nextMonth_range y m Hm) as Hn.
  rewrite IH by assumption.
  rewrite (labelAfter_0 _ _ d Hn), (labelAfter_next y m 0 Hm).
  f_equal.
  rewrite <- seq_shift, map_map.
  apply map_ext; intros k.
  rewrite (labelAfter_next y m _ Hm); f_equal; lia.
Qed.

Lemma startDate_last (now : Date) (older : list HistoryRow) (row : HistoryRow) :
  startDate now (older ++ [row]) = created_at row.
Proof.
  unfold startDate; rewrite last_last.
  destruct older; reflexivity.
Qed.

(** X6.  Month labels of the forecast.  When the last historical timestamp
    falls on day 1 to 28 of month [m] of year [y], the forecast points are
    labelled, in order, with the 1st, 2nd, ... month after it, across year
    ends. *)
Theorem prepareChartData_forecast_labels (now : Date)
    (older : list HistoryRow) (y m d : Z) (c : num) (fc : list num) :
  (0 <= m <= 11)%Z -> (1 <= d <= 28)%Z ->
  let h := older ++ [mkRow (mkDate y m d) c] in
  map Point.date
    (skipn (length h) (prepareChartData now h (Some (mkForecast (Some fc)))))
  = map (fun k => labelAfter y m (Z.of_nat k + 1)) (seq 0 (length fc)).
Proof.
  intros Hm Hd h; subst h.
  rewrite prepareChartData_eq.
  rewrite skipn_app_length by (rewrite length_map; reflexivity).
  rewrite startDate_last; cbn [created_at].
  apply forecastPoints_labels; assumption.
Qed.

Lemma prepareChartData_forecast_labels_witness :
  let h := [] ++ [mkRow (mkDate 2023 10 28) (Fin 100)] in
  map Point.date
    (skipn (length h)
       (prepareChartData (mkDate 2000 0 1) h
          (Some (mkForecast (Some [Fin 1; Fin 2; Fin 3])))))
  = map (fun k => labelAfter 2023 10 (Z.of_nat k + 1)) (seq 0 3).
Proof.
  apply (prepareChartData_forecast_labels (mkDate 2000 0 1) [] 2023 10 28
           (Fin 100) [Fin 1; Fin 2; Fin 3]); lia.
Defined.

Example labelAfter_example :
  map (fun k => labelAfter 2023 10 (Z.of_nat k + 1)) (seq 0 3)
  = ["Dec 23"; "Jan 24"; "Feb 24"]%string.
Proof. reflexivity. Qed.

(** At the end of a month: when the day of the month does not exist in the
    following month, [setMonth(getMonth() + 1)] lands in the month after
    it. *)
Lemma setMonth_overflow (y m d : Z) :
  (0 <= m <= 11)%Z -> (d <= 31)%Z ->
  (DaysInMonth (fst (nextMonth y m)) (snd (nextMonth y m)) < d)%Z ->
  setMonth (mkDate y m d) (getMonth (mkDate y m d) + 1)
  = mkDate (fst (nextMonth y m)) (snd (nextMonth y m) + 1)
           (d - DaysInMonth (fst (nextMonth y m)) (snd (nextMonth y m)))
  /\ (snd (nextMonth y m) + 1 <= 11)%Z.
Proof.
  intros Hm Hd Hover.
  unfold setMonth, MakeDay, getMonth; cbn [fullYear monthIndex dayOfMonth].
  pose proof (nextMonth_closed y m Hm) as Hnm.
  pose proof (nextMonth_range y m Hm) as Hrange.
  destruct (nextMonth y m) as [y' m']; cbn [fst snd] in *.
  injection Hnm as Hy Hm'; rewrite <- Hy, <- Hm'.
  pose proof (DaysInMonth_bounds y' m') as Hb.
  assert (Hne : m' <> 11%Z).
  { intros ->; unfold DaysInMonth in Hover; simpl in Hover; lia. }
  remember (Z.to_nat (Z.abs d) + 1)%nat as fuel eqn:Hfuel.
  destruct fuel as [ | [ | fuel]]; [lia | lia | ].
  cbn [carryDays].
  destruct (Z.ltb_spec d 1) as [Hlt | _]; [lia | ].
  destruct (Z.ltb_spec (DaysInMonth y' m') d) as [_ | Hin]; [ | lia].
  unfold nextMonth at 1.
  destruct (Z.eqb_spec m' 11) as [E | _]; [contradiction | ].
  pose proof (DaysInMonth_bounds y' (m' + 1)) as Hb'.
  destruct (Z.ltb_spec (d - DaysInMonth y' m') 1) as [Hlt | _]; [lia | ].
  destruct (Z.ltb_spec (DaysInMonth y' (m' + 1)) (d - DaysInMonth y' m'))
    as [Hlt | _]; [lia | ].
  split; [reflexivity | lia].
Qed.

(** X7.  The month-end skip in general.  When the day of the last
    historical timestamp does not exist in the following month (a 29th,
    30th or 31st before a shorter month), the first forecast point is
    labelled with the second month after the last historical one: the
    month in between gets no point. *)
Theorem prepareChartData_month_end_skip (now : Date)
    (older : list HistoryRow) (y m d : Z) (c v : num) (rest : list num) :
  (0 <= m <= 11)%Z -> (d <= 31)%Z ->
  (DaysInMonth (fst (nextMonth y m)) (snd (nextMonth y m)) < d)%Z ->
  let h := older ++ [mkRow (mkDate y m d) c] in
  nth_error
    (map Point.date
       (prepareChartData now h (Some (mkForecast (Some (v :: rest))))))
    (length h)
  = Some (labelAfter y m 2).
Proof.
  intros Hm Hd Hover h; subst h.
  rewrite prepareChartData_eq, map_app.
  rewrite nth_error_app2 by (rewrite !length_map; lia).
  rewrite !length_map, Nat.sub_diag, startDate_last.
  cbn [created_at forecastPoints map nth_error Point.date].
  destruct (setMonth_overflow y m d Hm Hd Hover) as [-> Hle].
  f_equal; revert Hle; unfold nextMonth, labelAfter, toLocaleDateString.
  destruct (Z.eqb_spec m 11) as [-> | Hne]; cbn [fst snd fullYear monthIndex];
    intros Hle.
  - reflexivity.
  - rewrite Z.div_small, Z.mod_small, Z.add_0_r by lia.
    replace (m + 1 + 1)%Z with (m + 2)%Z by lia; reflexivity.
Qed.

Lemma prepareChartData_month_end_skip_witness :
  let h := [] ++ [mkRow (mkDate 2023 7 31) (Fin 100)] in
  nth_error
    (map Point.date
       (prepareChartData (mkDate 2000 0 1) h
          (Some (mkForecast (Some (Fin 1 :: [Fin 2]))))))
    (length h)
  = Some (labelAfter 2023 7 2).
Proof.
  apply (prepareChartData_month_end_skip (mkDate 2000 0 1) [] 2023 7 31
           (Fin 100) (Fin 1) [Fin 2]); [lia | lia | ].
  vm_compute; reflexivity.
Defined.

(* ===================================================================== *)
(** ** Further properties of the report *)
(* ===================================================================== *)

Import ReportFetch.

Lemma last_map {A B : Type} (g : A -> B) (l : list A) (d : A) :
  last (map g l) (g d) = g (last l d).
Proof.
  induction l as [ | x l IH]; [reflexivity | ].
  destruct l as [ | z l]; [reflexivity | ].
  exact IH.
Qed.

(** The state the [catch] block leaves. *)
Lemma catchBlock_eq (fd hd : list PriceRow) (st : ForecastState) :
  catchBlock fd hd st
  = match fd, hd with
    | _ :: _, _ =>
        mkState (Some (map price fd))
                (CostNum (price (last fd (mkPrice NaN))))
    | [], _ :: _ =>
        mkState (Some [price (last hd (mkPrice NaN))])
                (CostNum (price (last hd (mkPrice NaN))))
    | [], [] => mkState (Some []) CostNull
    end.
Proof.
  unfold catchBlock.
  destruct fd as [ | x fd].
  - destruct hd as [ | z hd]; [reflexivity | ].
    rewrite (nth_error_last (z :: hd) (mkPrice NaN)) by discriminate.
    reflexivity.
  - rewrite (nth_error_last (x :: fd) (mkPrice NaN)) by discriminate.
    reflexivity.
Qed.

Lemma fetchForecast_threw (r : Response) (fd hd : list PriceRow)
    (st : ForecastState) :
  r = Rejected \/ r = Body None ->
  fetchForecast r fd hd st
  = match fd, hd with
    | _ :: _, _ =>
        mkState (Some (map price fd))
                (CostNum (price (last fd (mkPrice NaN))))
    | [], _ :: _ =>
        mkState (Some [price (last hd (mkPrice NaN))])
                (CostNum (price (last hd (mkPrice NaN))))
    | [], [] => mkState (Some []) CostNull
    end.
Proof.
  intros [-> | ->]; unfold fetchForecast; cbn [tryBlock];
    rewrite catchBlock_eq; reflexivity.
Qed.

(** X9.  The fallback keeps the two pieces of state consistent.  When the
    request is rejected or the body has no [forecast], the series is an
    array (the forecast prices of the props, else the last historical
    price alone, else empty) whatever the state was before, and the cost
    is the last value of that series, [null] exactly when the series is
    empty. *)
Theorem fetchForecast_fallback (r : Response) (fd hd : list PriceRow)
    (st : ForecastState) :
  r = Rejected \/ r = Body None ->
  exists s,
    forecastSeries (fetchForecast r fd hd st) = Some s /\
    s = match fd, hd with
        | _ :: _, _ => map price fd
        | [], _ :: _ => [price (last hd (mkPrice NaN))]
        | [], [] => []
        end /\
    forecastedCost (fetchForecast r fd hd st)
    = match s with
      | [] => CostNull
      | _ :: _ => CostNum (last s NaN)
      end.
Proof.
  intros Hr; rewrite (fetchForecast_threw r fd hd st Hr).
  destruct fd as [ | x fd]; [destruct hd as [ | z hd] | ];
    eexists; repeat split.
  cbn [forecastedCost].
  rewrite <- (last_map price (x :: fd) (mkPrice NaN)); reflexivity.
Qed.

Lemma fetchForecast_fallback_witness :
  exists s,
    forecastSeries
      (fetchForecast Rejected [] (pricesOf [100; 110]) (mkState None CostNull))
    = Some s /\
    s = [price (last (pricesOf [100; 110]) (mkPrice NaN))] /\
    forecastedCost
      (fetchForecast Rejected [] (pricesOf [100; 110]) (mkState None CostNull))
    = match s with
      | [] => CostNull
      | _ :: _ => CostNum (last s NaN)
      end.
Proof.
  apply (fetchForecast_fallback Rejected [] (pricesOf [100; 110])
           (mkState None CostNull)).
  left; reflexivity.
Defined.

(** X10.  Statistics after the fallback.  When the request is rejected or
    the body has no [forecast], the state holds an array and a cost that
    is a number or [null], and [calculateStats] on it returns [null]
    exactly when the history is empty: forecast props alone give no
    statistics. *)
Theorem fetchForecast_fallback_stats (r : Response) (fd hd : list PriceRow)
    (st : ForecastState) :
  r = Rejected \/ r = Body None ->
  exists s c,
    fetchForecast r fd hd st = mkState (Some s) (costOfOption c) /\
    (calculateStats hd s (costOfOption c) = None <-> hd = []).
Proof.
  intros Hr; rewrite (fetchForecast_threw r fd hd st Hr).
  destruct fd as [ | x fd]; [destruct hd as [ | z hd] | ].
  - exists [], None; split; [reflexivity | ].
    rewrite calculateStats_none; tauto.
  - exists [price (last (z :: hd) (mkPrice NaN))],
           (Some (price (last (z :: hd) (mkPrice NaN)))).
    split; [reflexivity | ].
    rewrite calculateStats_none; split; [ | discriminate].
    intros [H | [H | H]]; discriminate.
  - exists (map price (x :: fd)), (Some (price (last (x :: fd) (mkPrice NaN)))).
    split; [reflexivity | ].
    rewrite calculateStats_none; split; [ | tauto].
    intros [H | [H | H]]; [exact H | discriminate | discriminate].
Qed.

Lemma fetchForecast_fallback_stats_witness :
  exists s c,
    fetchForecast (Body None) (pricesOf [120]) [] (mkState None CostNull)
    = mkState (Some s) (costOfOption c) /\
    (calculateStats [] s (costOfOption c) = None <-> @nil PriceRow = []).
Proof.
  apply (fetchForecast_fallback_stats (Body None) (pricesOf [120]) []
           (mkState None CostNull)).
  right; reflexivity.
Defined.

(** X11.  A response with fewer than six values.  The series is the response
    array and the cost is [undefined], never [null]: the test
    [forecastedCost === null] of [calculateStats] does not see it. *)
Theorem fetchForecast_short_response (arr : list num)
    (fd hd : list PriceRow) (st : ForecastState) :
  (length arr <= 5)%nat ->
  fetchForecast (Body (Some arr)) fd hd st = mkState (Some arr) CostUndefined.
Proof.
  intros Hlen; unfold fetchForecast, tryBlock, setForecastedCost,
    setForecastSeries, costAt; cbn [forecastSeries].
  replace (nth_error arr 5) with (@None num); [reflexivity | ].
  symmetry; apply nth_error_None; exact Hlen.
Qed.

Lemma fetchForecast_short_response_witness :
  (length [Fin 105; Fin 115] <= 5)%nat /\
  fetchForecast (Body (Some [Fin 105; Fin 115])) [] [] (mkState None CostNull)
  = mkState (Some [Fin 105; Fin 115]) CostUndefined.
Proof.
  assert (Hlen : (length [Fin 105; Fin 115] <= 5)%nat) by (simpl; lia).
  split; [exact Hlen | ].
  apply (fetchForecast_short_response [Fin 105; Fin 115] [] []
           (mkState None CostNull) Hlen).
Defined.

(** X12.  A response with at least six values and a non-empty history.  The
    cost is the sixth value (index 5), which is the last one when there
    are exactly six; the statistics are defined, show that value as
    [lastForecast] and average the whole response in [forecastAvg]. *)
Theorem fetchForecast_full_response (arr : list num)
    (fd hd : list PriceRow) (st : ForecastState) :
  (6 <= length arr)%nat -> hd <> [] ->
  exists v stats,
    nth_error arr 5 = Some v /\
    fetchForecast (Body (Some arr)) fd hd st = mkState (Some arr) (CostNum v) /\
    (length arr = 6%nat -> v = last arr NaN) /\
    calculateStats hd arr (CostNum v) = Some stats /\
    lastForecast stats = CostNum v /\
    forecastAvg stats = Spec.mean arr.
Proof.
  intros Hlen Hhd.
  destruct (nth_error arr 5) as [v | ] eqn:E.
  2:{ apply nth_error_None in E; lia. }
  exists v; eexists; split; [reflexivity | split; [ | split; [ | split]]].
  - unfold fetchForecast, tryBlock, setForecastedCost, setForecastSeries, costAt.
    rewrite E; reflexivity.
  - intros H6.
    do 6 (destruct arr as [ | ? arr]; [discriminate | ]).
    destruct arr; [ | discriminate].
    simpl in E; injection E as <-; reflexivity.
  - apply calculateStats_defined; [exact Hhd | ].
    intros ->; simpl in Hlen; lia.
  - split; reflexivity.
Qed.

Lemma fetchForecast_full_response_witness :
  let arr := [Fin 1; Fin 2; Fin 3; Fin 4; Fin 5; Fin 6; Fin 7] in
  exists v stats,
    nth_error arr 5 = Some v /\
    fetchForecast (Body (Some arr)) [] (pricesOf [100]) (mkState None CostNull)
    = mkState (Some arr) (CostNum v) /\
    (length arr = 6%nat -> v = last arr NaN) /\
    calculateStats (pricesOf [100]) arr (CostNum v) = Some stats /\
    lastForecast stats = CostNum v /\
    forecastAvg stats = Spec.mean arr.
Proof.
  intros arr.
  apply (fetchForecast_full_response arr [] (pricesOf [100])
           (mkState None CostNull)); [simpl; lia | discriminate].
Defined.

Import ReportView.

Lemma geb_Fin_zero (r : R) : geb (Fin r) zero = true <-> 0 <= r.
Proof.
  unfold geb, zero; destruct (Rle_dec 0 r); split; intros; try assumption;
    try reflexivity; try discriminate; contradiction.
Qed.

Lemma calculateStats_real (hr fr : list R) (v : num) :
  hr <> [] -> fr <> [] -> Spec.meanR hr <> 0 ->
  exists st,
    calculateStats (pricesOf hr) (map Fin fr) (CostNum v) = Some st /\
    percentChange st
    = Fin (Spec.percentChangeR (Spec.meanR fr) (Spec.meanR hr)).
Proof.
  intros Hh Hf Hm.
  eexists; split.
  { apply calculateStats_defined.
    - destruct hr; [congruence | discriminate].
    - destruct fr; [congruence | discriminate]. }
  cbn [percentChange].
  rewrite map_price_pricesOf, !mean_Fin by assumption.
  unfold Spec.percentChange, Spec.percentChangeR; cbn [sub neg add div].
  destruct (Req_dec_T (Spec.meanR hr) 0) as [E | _]; [contradiction | ].
  reflexivity.
Qed.

Lemma percentChangeR_nonneg (f h : R) :
  0 < h -> (0 <= Spec.percentChangeR f h <-> h <= f).
Proof.
  intros Hh; unfold Spec.percentChangeR, Rdiv.
  assert (Hinv : 0 < / h) by (apply Rinv_0_lt_compat; exact Hh).
  split.
  - intros Hpc.
    destruct (Rle_dec h f) as [Hle | Hgt]; [exact Hle | exfalso].
    assert (Hneg : (f - h) * / h < 0).
    { rewrite <- (Rmult_0_l (/ h)); apply Rmult_lt_compat_r; lra. }
    lra.
  - intros Hle.
    assert (0 <= (f - h) * / h) by (apply Rmult_le_pos; lra).
    lra.
Qed.

(** X13.  The wording of the summary.  For real prices with a positive
    historical average, the report says "increase" and prefixes the
    change with "+" exactly when the forecast average is at least the
    historical average. *)
Theorem trendWord_increase (hr fr : list R) (v : num) :
  hr <> [] -> fr <> [] -> 0 < Spec.meanR hr ->
  exists st,
    calculateStats (pricesOf hr) (map Fin fr) (CostNum v) = Some st /\
    (trendWord (Some st) = " increase "%string
     <-> Spec.meanR hr <= Spec.meanR fr) /\
    (signPrefix st = "+"%string <-> Spec.meanR hr <= Spec.meanR fr).
Proof.
  intros Hh Hf Hpos.
  destruct (calculateStats_real hr fr v Hh Hf) as [st [Hst Hpc]]; [lra | ].
  exists st; split; [exact Hst | ].
  unfold trendWord, signPrefix; rewrite Hpc.
  rewrite <- (percentChangeR_nonneg _ _ Hpos), <- geb_Fin_zero.
  destruct (geb _ zero); split; split; intros H;
    try reflexivity; discriminate H.
Qed.

Lemma trendWord_increase_witness :
  exists st,
    calculateStats (pricesOf [100; 110]) (map Fin [105; 115]) (CostNum (Fin 115))
    = Some st /\
    (trendWord (Some st) = " increase "%string
     <-> Spec.meanR [100; 110] <= Spec.meanR [105; 115]) /\
    (signPrefix st = "+"%string
     <-> Spec.meanR [100; 110] <= Spec.meanR [105; 115]).
Proof.
  apply (trendWord_increase [100; 110] [105; 115] (Fin 115));
    try discriminate.
  unfold Spec.meanR; simpl; lra.
Defined.

(** X14.  The wording on a zero historical average.  The unguarded quotient
    decides: the report says "increase", with "+", when the forecast
    average is positive ([+Infinity]), and "decrease", with no sign, when
    it is zero ([NaN]) or negative ([-Infinity]). *)
Theorem trendWord_zero_average (hr fr : list R) (v : num) :
  hr <> [] -> fr <> [] -> Spec.meanR hr = 0 ->
  exists st,
    calculateStats (pricesOf hr) (map Fin fr) (CostNum v) = Some st /\
    (0 < Spec.meanR fr ->
     trendWord (Some st) = " increase "%string /\ signPrefix st = "+"%string) /\
    (Spec.meanR fr <= 0 ->
     trendWord (Some st) = " decrease "%string /\ signPrefix st = ""%string).
Proof.
  intros Hh Hf Hz.
  eexists; split.
  { apply calculateStats_defined.
    - destruct hr; [congruence | discriminate].
    - destruct fr; [congruence | discriminate]. }
  unfold trendWord, signPrefix; cbn [percentChange].
  rewrite map_price_pricesOf, !mean_Fin, Hz by assumption.
  unfold Spec.percentChange; cbn [sub neg add div].
  destruct (Req_dec_T 0 0) as [_ | NE]; [ | lra].
  rewrite mul_signed_inf_100; unfold sgnR.
  split; intros Hs;
    destruct (Rlt_dec (Spec.meanR fr + - 0) 0); try lra;
    try (split; reflexivity);
    destruct (Rlt_dec 0 (Spec.meanR fr + - 0)); try lra;
    split; reflexivity.
Qed.

Lemma trendWord_zero_average_witness :
  exists st,
    calculateStats (pricesOf [0]) (map Fin [0]) (CostNum (Fin 0)) = Some st /\
    (0 < Spec.meanR [0] ->
     trendWord (Some st) = " increase "%string /\ signPrefix st = "+"%string) /\
    (Spec.meanR [0] <= 0 ->
     trendWord (Some st) = " decrease "%string /\ signPrefix st = ""%string).
Proof.
  apply (trendWord_zero_average [0] [0] (Fin 0)); try discriminate.
  unfold Spec.meanR; simpl; lra.
Defined.



(** X16.  [percentChange] does not depend on the unit.  For real prices with
    a non-zero historical average, multiplying every price and every
    forecast value by a non-zero [c] leaves [percentChange] unchanged. *)
Theorem percentChange_scale_invariant (hr fr : list R) (c : R) (v v' : num) :
  hr <> [] -> fr <> [] -> Spec.meanR hr <> 0 -> c <> 0 ->
  exists st st',
    calculateStats (pricesOf hr) (map Fin fr) (CostNum v) = Some st /\
    calculateStats (pricesOf (map (Rmult c) hr)) (map Fin (map (Rmult c) fr))
                   (CostNum v') = Some st' /\
    percentChange st' = percentChange st.
Proof.
  intros Hh Hf Hm Hc.
  destruct (calculateStats_real hr fr v Hh Hf Hm) as [st [Hst Hpc]].
  assert (Hh' : map (Rmult c) hr <> []) by (destruct hr; [congruence | discriminate]).
  assert (Hf' : map (Rmult c) fr <> []) by (destruct fr; [congruence | discriminate]).
  assert (Hm' : Spec.meanR (map (Rmult c) hr) <> 0).
  { rewrite meanR_map_mult; intros E; apply Rmult_integral in E; tauto. }
  destruct (calculateStats_real _ _ v' Hh' Hf' Hm') as [st' [Hst' Hpc']].
  exists st, st'; split; [exact Hst | split; [exact Hst' | ]].
  rewrite Hpc, Hpc', !meanR_map_mult; f_equal.
  unfold Spec.percentChangeR; field; split; assumption.
Qed.

Lemma percentChange_scale_invariant_witness :
  exists st st',
    calculateStats (pricesOf [100; 110]) (map Fin [105; 115]) (CostNum (Fin 115))
    = Some st /\
    calculateStats (pricesOf (map (Rmult 56) [100; 110]))
                   (map Fin (map (Rmult 56) [105; 115])) (CostNum (Fin 6440))
    = Some st' /\
    percentChange st' = percentChange st.
Proof.
  apply (percentChange_scale_invariant [100; 110] [105; 115] 56
           (Fin 115) (Fin 6440)); try discriminate.
  - unfold Spec.meanR; simpl; lra.
  - lra.
Defined.

(* ===================================================================== *)
(** ** The layout of the exported page *)
(* ===================================================================== *)

Lemma pageWidth_eq : ReportPdf.pageWidth = Fin 190.
Proof.
  unfold ReportPdf.pageWidth, ReportPdf.margin; cbn [sub neg add mul].
  f_equal; lra.
Qed.

Lemma pageHeight_eq : ReportPdf.pageHeight = Fin 277.
Proof.
  unfold ReportPdf.pageHeight, ReportPdf.margin; cbn [sub neg add mul].
  f_equal; lra.
Qed.

Lemma imagePlacement_eq (w h : nat) :
  (0 < w)%nat ->
  ReportPdf.imagePlacement w h
  = ReportPdf.mkPlacement (Fin 10) (Fin 10) (Fin 190)
      (Fin (INR h * 190 / INR w)).
Proof.
  intros Hw; unfold ReportPdf.imagePlacement.
  rewrite pageWidth_eq; unfold ReportPdf.margin, of_nat at 1; cbn [mul].
  rewrite div_Fin_of_nat by exact Hw; reflexivity.
Qed.

(** X17.  The image on the page.  For a canvas of non-zero width the image
    is placed 10 mm from the left and top edges, is 190 mm wide, which
    leaves 10 mm on the right of the 210 mm page, and keeps the aspect
    ratio of the canvas. *)
Theorem imagePlacement_fit (w h : nat) :
  (0 < w)%nat ->
  exists iw ih,
    ReportPdf.imagePlacement w h
    = ReportPdf.mkPlacement (Fin 10) (Fin 10) (Fin iw) (Fin ih) /\
    10 + iw + 10 = 210 /\
    ih * INR w = iw * INR h.
Proof.
  intros Hw; exists 190, (INR h * 190 / INR w).
  split; [apply imagePlacement_eq; exact Hw | split; [lra | ]].
  assert (INR w <> 0) by (apply not_0_INR; lia).
  field; assumption.
Qed.

Lemma imagePlacement_fit_witness :
  exists iw ih,
    ReportPdf.imagePlacement 800 600
    = ReportPdf.mkPlacement (Fin 10) (Fin 10) (Fin iw) (Fin ih) /\
    10 + iw + 10 = 210 /\
    ih * INR 800 = iw * INR 600.
Proof. apply (imagePlacement_fit 800 600); lia. Defined.

(** X18.  The image is never fitted to the height of the page.  The
    printable height of 277 mm is computed and not used: for a canvas of
    non-zero width the image is taller than it exactly when the canvas is
    taller than 277 : 190. *)
Theorem imagePlacement_overflow (w h : nat) :
  (0 < w)%nat ->
  exists ih ph,
    ReportPdf.imgHeight (ReportPdf.imagePlacement w h) = Fin ih /\
    ReportPdf.pageHeight = Fin ph /\
    (ph < ih <-> 277 * INR w < 190 * INR h).
Proof.
  intros Hw; exists (INR h * 190 / INR w), 277.
  rewrite imagePlacement_eq by exact Hw.
  split; [reflexivity | split; [apply pageHeight_eq | ]].
  assert (Hpos : 0 < INR w) by (apply lt_0_INR; exact Hw).
  assert (Hinv : 0 < / INR w) by (apply Rinv_0_lt_compat; exact Hpos).
  assert (E : INR h * 190 / INR w * INR w = 190 * INR h) by (field; lra).
  split; intros Hlt.
  - rewrite <- E; apply Rmult_lt_compat_r; assumption.
  - apply (Rmult_lt_reg_r (INR w)); [exact Hpos | rewrite E; exact Hlt].
Qed.

Lemma imagePlacement_overflow_witness :
  exists ih ph,
    ReportPdf.imgHeight (ReportPdf.imagePlacement 800 2000) = Fin ih /\
    ReportPdf.pageHeight = Fin ph /\
    (ph < ih <-> 277 * INR 800 < 190 * INR 2000).
Proof. apply (imagePlacement_overflow 800 2000); lia. Defined.

(** X19.  A canvas of width 0.  The division is not guarded: the image
    height is [+Infinity], or [NaN] when the canvas height is 0 too. *)
Theorem imagePlacement_zero_width (h : nat) :
  ReportPdf.imgHeight (ReportPdf.imagePlacement 0 h)
  = match h with
    | O => NaN
    | S _ => PInf
    end.
Proof.
  unfold ReportPdf.imagePlacement; cbn [ReportPdf.imgHeight].
  rewrite pageWidth_eq; unfold of_nat; cbn [mul div].
  change (INR 0) with 0.
  destruct (Req_dec_T 0 0) as [_ | NE]; [ | lra].
  unfold sgnR; destruct h as [ | h].
  - change (INR 0) with 0.
    destruct (Rlt_dec (0 * 190) 0); [lra | ].
    destruct (Rlt_dec 0 (0 * 190)); [lra | reflexivity].
  - assert (0 < INR (S h)) by (apply lt_0_INR; lia).
    destruct (Rlt_dec (INR (S h) * 190) 0); [lra | ].
    destruct (Rlt_dec 0 (INR (S h) * 190)); [reflexivity | lra].
Qed.

(* ===================================================================== *)
(** ** A response without a forecast *)
(* ===================================================================== *)

(** X8.  A body without [forecast].  Both metrics are 0 whatever the
    history, and the chart data are the historical points alone, one per
    row and in order, the same as for a missing body. *)
Theorem chart_without_forecast (now : Date) (h : list HistoryRow) :
  calculateMAPE h (mkForecast None) = zero /\
  calculateRMSE h (mkForecast None) = zero /\
  prepareChartData now h (Some (mkForecast None)) = map historicalPoint h /\
  prepareChartData now h None = map historicalPoint h.
Proof.
  repeat split.
  - unfold calculateMAPE; destruct (length h =? 0)%nat; reflexivity.
  - unfold calculateRMSE; destruct (length h =? 0)%nat; reflexivity.
  - rewrite prepareChartData_eq; apply app_nil_r.
  - rewrite prepareChartData_eq; apply app_nil_r.
Qed.
